(** * PmLogCtl: the command line front end of the PmLog logging library

    A shallow embedding of [src/PmLogCtl.c].  C strings are modelled as
    [string] values read the way the C library reads memory: a
    character [NUL] inside a value terminates the string it holds, and
    the end of a value is its terminator.  The logging library
    (PmLogLib), libc and the operating system are outside the program;
    they are an interface ([Platform]) whose calls are recorded as
    events. *)

From Stdlib Require Import ZArith List String Ascii Bool Lia.
From Stdlib Require Import Sorting.Permutation Sorting.Sorted.
From Stdlib Require Import DecimalString.
Import ListNotations.

Local Open Scope string_scope.
Local Open Scope Z_scope.

(** ** libc string functions *)

Module CStr.

Definition NUL : ascii := "000"%char.

(** [unsigned char] value of a byte. *)
Definition code (c : ascii) : Z := Z.of_nat (nat_of_ascii c).

(** A well-formed C string has no byte [NUL] before its terminator. *)
Definition cstring (s : string) : Prop :=
  ~ In NUL (list_ascii_of_string s).

(** [contains c s]: the byte [c] occurs in [s]. *)
Definition contains (c : ascii) (s : string) : Prop :=
  In c (list_ascii_of_string s).

(** [strchr s c]: offset of the first occurrence of [c] in [s], or
    [None] for the null pointer. *)
Fixpoint strchr (s : string) (c : ascii) : option nat :=
  match s with
  | EmptyString => if Ascii.eqb NUL c then Some 0%nat else None
  | String x r =>
      if Ascii.eqb x c then Some 0%nat
      else if Ascii.eqb x NUL then None
      else option_map S (strchr r c)
  end.

(** [strcmp]: bytes are compared as [unsigned char] up to the first
    difference or the terminator. *)
Fixpoint strcmp (s1 s2 : string) : Z :=
  match s1, s2 with
  | EmptyString, EmptyString => 0
  | EmptyString, String c2 _ => 0 - code c2
  | String c1 _, EmptyString => code c1 - 0
  | String c1 r1, String c2 r2 =>
      if negb (Ascii.eqb c1 c2) then code c1 - code c2
      else if Ascii.eqb c1 NUL then 0
      else strcmp r1 r2
  end.

(** [memcmp s1 s2 n]: the first [n] bytes of the two objects, the
    terminator included; there is no stop at [NUL].  Reads past the
    terminator of a value see [NUL]. *)
Fixpoint memcmp (s1 s2 : string) (n : nat) : Z :=
  match n with
  | O => 0
  | S n' =>
      let '(c1, r1) := match s1 with
                       | String c r => (c, r)
                       | EmptyString => (NUL, EmptyString)
                       end in
      let '(c2, r2) := match s2 with
                       | String c r => (c, r)
                       | EmptyString => (NUL, EmptyString)
                       end in
      if negb (Ascii.eqb c1 c2) then code c1 - code c2
      else memcmp r1 r2 n'
  end.

(** [tolower] in the "C" locale (the program never calls setlocale). *)
Definition tolower (c : Z) : Z :=
  if (65 <=? c) && (c <=? 90) then c + 32 else c.

(** [strcasecmp]: as [strcmp] on the lower-cased bytes. *)
Fixpoint strcasecmp (s1 s2 : string) : Z :=
  match s1, s2 with
  | EmptyString, EmptyString => 0
  | EmptyString, String c2 _ => 0 - tolower (code c2)
  | String c1 _, EmptyString => tolower (code c1) - 0
  | String c1 r1, String c2 r2 =>
      let d := tolower (code c1) - tolower (code c2) in
      if negb (d =? 0) then d
      else if Ascii.eqb c1 NUL then 0
      else strcasecmp r1 r2
  end.

End CStr.
Import CStr.

(** ** Name matching (PmLogCtl.c, lines 127-188 and 288-303) *)

(** [kPmLogGlobalContextName]: the name the comment of
    [PrvResolveContextNameAlias] gives for the global context. *)
Definition kPmLogGlobalContextName : string := "<global>".

Definition PrvIsWildcardContextName (matchContextName : string) : bool :=
  match strchr matchContextName "*" with
  | Some _ => true
  | None => false
  end.

(** [matchContextName = None] is the null pointer: match all. *)
Definition PrvMatchContextName (contextName : string)
    (matchContextName : option string) : bool :=
  match matchContextName with
  | None => true
  | Some matchContextName =>
      match strchr matchContextName "*" with
      | None =>
          (* no wildcard means we need an exact match *)
          if strcmp contextName matchContextName =? 0 then true else false
      | Some matchPrefixLen =>
          if Nat.eqb matchPrefixLen 0 then true
          else if memcmp contextName matchContextName matchPrefixLen =? 0
               then true
               else false
      end
  end.

Definition PrvResolveContextNameAlias (contextName : string) : string :=
  if strcmp contextName "." =? 0 then kPmLogGlobalContextName
  else contextName.

(** ** The platform *)

(** [PmLogErr]: the library's error codes, an enumeration of integers. *)
Definition PmLogErr := Z.

(** The logging library, the libc calls and the kernel message device
    the program uses.  [World] is everything outside the process: the
    library's context registry and the device.  [option Handle] is a
    [PmLogContext], [None] the null pointer.  The constants are those of
    PmLogLib.h; [PMLOG_MAX_NUM_CONTEXTS] is used in the dimension of an
    array, [PMLOG_MAX_NUM_CONTEXTS + 1], and so is not negative. *)
Class Platform := {
  World : Type;
  Handle : Type;
  FILE : Type;
  kPmLogErr_None : PmLogErr;
  kPmLogErr_Unknown : PmLogErr;
  kPmLogGlobalContext : option Handle;
  kPmLogLevel_Notice : Z;
  kPmLogLevel_Emergency : Z;
  PMLOG_MAX_NUM_CONTEXTS : nat;
  PMLOG_MAX_CONTEXT_NAME_LEN : Z;
  (* queries: the registry is read, not changed *)
  lib_GetNumContexts : World -> PmLogErr * Z;
  lib_GetIndContext : World -> Z -> PmLogErr * option Handle;
  lib_GetContextName : World -> option Handle -> Z -> PmLogErr * string;
  lib_FindContext : World -> string -> PmLogErr * option Handle;
  lib_enabledLevel : World -> option Handle -> Z;
  (* calls that may change the registry or emit a message *)
  lib_GetContext : World -> string -> World * (PmLogErr * option Handle);
  lib_SetContextLevel : World -> option Handle -> Z -> World * PmLogErr;
  lib_Print_ : World -> option Handle -> Z -> string -> list string
               -> World * PmLogErr;
  lib_Print : World -> option Handle -> Z -> string -> World * PmLogErr;
  (* conversions *)
  lib_StringToLevel : string -> option Z;
  lib_LevelToString : Z -> option string;
  lib_GetErrDbgString : PmLogErr -> string;
  (* libc and the device; the [Z] beside a result is [errno] *)
  libc_qsort : forall A : Type, (A -> A -> Z) -> list A -> list A;
  libc_strerror : Z -> string;
  os_fopen : World -> string -> string -> World * (option FILE * Z);
  os_fprintf : World -> FILE -> string -> World * (Z * Z);
  os_fclose : World -> FILE -> World
}.

(** Modelled from the spec: the enumeration [Result] of PmLogCtl.h,
    which is not under src/: the four logical outcomes OK, parameter
    error, run error and help-shown. *)
Inductive Result : Type :=
| RESULT_OK
| RESULT_PARAM_ERR
| RESULT_RUN_ERR
| RESULT_HELP.

Definition Result_eqb (a b : Result) : bool :=
  match a, b with
  | RESULT_OK, RESULT_OK | RESULT_PARAM_ERR, RESULT_PARAM_ERR
  | RESULT_RUN_ERR, RESULT_RUN_ERR | RESULT_HELP, RESULT_HELP => true
  | _, _ => false
  end.

Definition EXIT_SUCCESS : Z := 0.
Definition EXIT_FAILURE : Z := 1.

(** The line feed a C literal writes as backslash-n.  The formats of
    [printf] events keep the text of the C source. *)
Definition LF : string := String (ascii_of_nat 10) EmptyString.

(** ["%d"] of printf. *)
Definition fmt_d (n : Z) : string := NilZero.string_of_int (Z.to_int n).

(** Modelled from the spec: [mysprintf], a function of this repository
    that is not under src/: sprintf into a buffer of [dstSize] bytes,
    here applied to the formatted text, which is kept up to the room the
    buffer has beside its terminator. *)
Definition mysprintf (dstSize : nat) (formatted : string) : string :=
  substring 0 (dstSize - 1) formatted.

(** An argument of a printf call. *)
Inductive Arg : Type :=
| AStr (s : string)
| ANull
| AInt (n : Z).

Definition AStrP (s : option string) : Arg :=
  match s with Some s => AStr s | None => ANull end.

Section Program.
Context {P : Platform}.

Definition PmLogContext : Type := option Handle.

(** What the process does to the outside, in order.
    [EvStorePastArray index] is a store to [contextInfos[index]] where
    [index] is past the last slot of the array: from this event on the C
    standard does not say what the program does, and what follows it in
    a trace is only what the source does next if the store does no
    harm. *)
Inductive Event : Type :=
| EvStorePastArray (index : Z)
| EvPrintf (fmt : string) (args : list Arg)
| EvGetNumContexts
| EvGetIndContext (i : Z)
| EvGetContextName (c : PmLogContext)
| EvFindContext (name : string)
| EvGetContext (name : string)
| EvSetContextLevel (c : PmLogContext) (level : Z)
| EvPrint_ (c : PmLogContext) (level : Z) (fmt : string) (args : list string)
| EvPrint (c : PmLogContext) (level : Z) (msg : string)
| EvStringToLevel (s : string)
| EvLevelToString (level : Z)
| EvGetErrDbgString (e : PmLogErr)
| EvFopen (path mode : string)
| EvFprintf (data : string)
| EvFclose.

(** A computation reads and changes the world and leaves a trace. *)
Definition M (A : Type) : Type := World -> A * World * list Event.

Definition ret {A} (a : A) : M A := fun w => (a, w, []).

Definition bind {A B} (m : M A) (f : A -> M B) : M B :=
  fun w =>
    let '(a, w1, t1) := m w in
    let '(b, w2, t2) := f a w1 in
    (b, w2, (t1 ++ t2)%list).

Definition query {A} (f : World -> A) (e : Event) : M A :=
  fun w => (f w, w, [e]).

Definition call {A} (f : World -> World * A) (e : Event) : M A :=
  fun w => let '(w', a) := f w in (a, w', [e]).

End Program.

Declare Scope prog_scope.
Delimit Scope prog_scope with prog.
Notation "x <- m ;; k" := (bind m (fun x => k))
  (at level 61, m at next level, right associativity) : prog_scope.
Notation "' p <- m ;; k" := (bind m (fun p => k))
  (at level 61, p pattern, m at next level, right associativity) : prog_scope.
Notation "m ;; k" := (bind m (fun _ => k))
  (at level 61, right associativity) : prog_scope.

Section Calls.
Context {P : Platform}.
Local Open Scope prog_scope.

Definition printf (fmt : string) (args : list Arg) : M unit :=
  fun w => (tt, w, [EvPrintf fmt args]).

Definition PmLogGetNumContexts : M (PmLogErr * Z) :=
  query lib_GetNumContexts EvGetNumContexts.

Definition PmLogGetIndContext (i : Z) : M (PmLogErr * PmLogContext) :=
  query (fun w => lib_GetIndContext w i) (EvGetIndContext i).

Definition PmLogGetContextName (c : PmLogContext) (size : Z)
  : M (PmLogErr * string) :=
  query (fun w => lib_GetContextName w c size) (EvGetContextName c).

Definition PmLogFindContext (name : string) : M (PmLogErr * PmLogContext) :=
  query (fun w => lib_FindContext w name) (EvFindContext name).

Definition PmLogGetContext (name : string) : M (PmLogErr * PmLogContext) :=
  call (fun w => lib_GetContext w name) (EvGetContext name).

Definition PmLogSetContextLevel (c : PmLogContext) (level : Z) : M PmLogErr :=
  call (fun w => lib_SetContextLevel w c level) (EvSetContextLevel c level).

Definition PmLogPrint_ (c : PmLogContext) (level : Z) (fmt : string)
    (args : list string) : M PmLogErr :=
  call (fun w => lib_Print_ w c level fmt args) (EvPrint_ c level fmt args).

Definition PmLogPrint (c : PmLogContext) (level : Z) (msg : string)
  : M PmLogErr :=
  call (fun w => lib_Print w c level msg) (EvPrint c level msg).

Definition PmLogStringToLevel (s : string) : M (option Z) :=
  query (fun _ => lib_StringToLevel s) (EvStringToLevel s).

Definition PmLogLevelToString (level : Z) : M (option string) :=
  query (fun _ => lib_LevelToString level) (EvLevelToString level).

Definition PmLogGetErrDbgString (e : PmLogErr) : M string :=
  query (fun _ => lib_GetErrDbgString e) (EvGetErrDbgString e).

Definition fopen (path mode : string) : M (option FILE * Z) :=
  call (fun w => os_fopen w path mode) (EvFopen path mode).

Definition fprintf (f : FILE) (data : string) : M (Z * Z) :=
  call (fun w => os_fprintf w f data) (EvFprintf data).

Definition fclose (f : FILE) : M unit :=
  call (fun w => (os_fclose w f, tt)) EvFclose.

(** [c->enabledLevel]: a read of the library's shared memory. *)
Definition enabledLevel (c : PmLogContext) : M Z :=
  fun w => (lib_enabledLevel w c, w, []).

(** [logErr != kPmLogErr_None] *)
Definition failed (logErr : PmLogErr) : bool :=
  negb (logErr =? kPmLogErr_None).

(** [argv[i]] *)
Definition arg_at (argv : list string) (i : nat) : string :=
  nth i argv "".

End Calls.

(** ** The program (PmLogCtl.c) *)

Section Commands.
Context {P : Platform}.
Local Open Scope prog_scope.

Definition SuggestHelp : M unit :=
  printf "Use -help for usage information.\n" [].

(** [ContextInfo_t]; the name is the C string its [contextName] buffer
    holds. *)
Record ContextInfo_t : Type := mkContextInfo {
  context : PmLogContext;
  contextName : string
}.

(** [ContextsInfo_t] is the list of its first [numContexts] entries. *)
Definition numContexts (contextInfos : list ContextInfo_t) : Z :=
  Z.of_nat (List.length contextInfos).

Definition SortCmpContextInfoByName (context1P context2P : ContextInfo_t) : Z :=
  strcasecmp (contextName context1P) (contextName context2P).

(** The slots of [contextInfos] in [ContextsInfo_t]. *)
Definition contextInfos_slots : Z := Z.of_nat PMLOG_MAX_NUM_CONTEXTS + 1.

(** [contextInfoP = &contextInfos[numContexts]] and the stores through
    it, which come before the test of the capacity: with every slot
    taken by an accepted entry they are stores past the array. *)
Definition slot_store (contextInfos : list ContextInfo_t) : M unit :=
  if numContexts contextInfos >=? contextInfos_slots
  then fun w => (tt, w, [EvStorePastArray (numContexts contextInfos)])
  else ret tt.

(** The [for] loop of [PrvGetContextList], [count] iterations from index
    [i] on.  The C code fills the slot at index [numContexts], after the
    accepted entries, and keeps it by incrementing [numContexts] when
    the name matches and the array is not full; the slot is otherwise
    filled again by the next iteration.  Here [contextInfos] holds the
    accepted entries and the slot is the pair [c], [name].  [Some
    logErr] is an early return. *)
Fixpoint PrvGetContextList_loop (matchContextName : option string)
    (count : nat) (i : Z) (contextInfos : list ContextInfo_t)
  : M (option PmLogErr * list ContextInfo_t) :=
  match count with
  | O => ret (None, contextInfos)
  | S count' =>
      slot_store contextInfos ;;
      '(logErr, c) <- PmLogGetIndContext i ;;
      if failed logErr then ret (Some logErr, contextInfos)
      else
        '(logErr, name) <-
           PmLogGetContextName c (PMLOG_MAX_CONTEXT_NAME_LEN + 1) ;;
        if failed logErr then ret (Some logErr, contextInfos)
        else if negb (PrvMatchContextName name matchContextName)
        then PrvGetContextList_loop matchContextName count' (i + 1)
               contextInfos
        else if numContexts contextInfos >=? contextInfos_slots
        then ret (Some kPmLogErr_Unknown, contextInfos)
        else PrvGetContextList_loop matchContextName count' (i + 1)
               (contextInfos ++ [mkContextInfo c name])%list
  end.

Definition PrvGetContextList (matchContextName : option string)
  : M (PmLogErr * list ContextInfo_t) :=
  '(logErr, n) <- PmLogGetNumContexts ;;
  if failed logErr then ret (logErr, [])
  else if n <=? 0 then ret (kPmLogErr_Unknown, [])
  else
    '(early, contextInfos) <-
       PrvGetContextList_loop matchContextName (Z.to_nat n) 0 [] ;;
    match early with
    | Some logErr => ret (logErr, contextInfos)
    | None =>
        ret (kPmLogErr_None,
             if numContexts contextInfos >? 0
             then libc_qsort _ SortCmpContextInfoByName contextInfos
             else contextInfos)
    end.

Definition ShowContext (contextInfoP : ContextInfo_t) : M unit :=
  level <- enabledLevel (context contextInfoP) ;;
  levelStr <- PmLogLevelToString level ;;
  let levelStr := match levelStr with
                  | Some s => s
                  | None => "Unknown"
                  end in
  printf "Context '%s' = %s\n" [AStr (contextName contextInfoP); AStr levelStr].

Fixpoint DoCmdShow_loop (contextInfos : list ContextInfo_t) : M unit :=
  match contextInfos with
  | [] => ret tt
  | contextInfoP :: rest => ShowContext contextInfoP ;; DoCmdShow_loop rest
  end.

Definition DoCmdShow (argv : list string) : M Result :=
  let argc := Z.of_nat (List.length argv) in
  let matchContextName :=
    if argc >=? 2 then Some (PrvResolveContextNameAlias (arg_at argv 1))
    else None in
  if argc >=? 3 then
    printf "Invalid parameter '%s'\n" [AStr (arg_at argv 2)] ;;
    ret RESULT_PARAM_ERR
  else
    '(logErr, contextInfos) <- PrvGetContextList matchContextName ;;
    if failed logErr then
      dbg <- PmLogGetErrDbgString logErr ;;
      printf "Error getting contexts info: 0x%08X (%s)\n"
        [AInt logErr; AStr dbg] ;;
      ret RESULT_RUN_ERR
    else
      DoCmdShow_loop contextInfos ;;
      match matchContextName with
      | Some name =>
          if numContexts contextInfos =? 0 then
            (if PrvIsWildcardContextName name
             then printf "No contexts matched '%s'.\n" [AStr name]
             else printf "Context '%s' not found.\n" [AStr name]) ;;
            ret RESULT_RUN_ERR
          else ret RESULT_OK
      | None => ret RESULT_OK
      end.

(** The argument loop of [DoCmdSet] over [argv[i..]], with the locals it
    updates; [inl] is a [return] from inside the loop. *)
Fixpoint DoCmdSet_args (args : list string) (matchContextName : option string)
    (matchedContext : PmLogContext) (levelIntP : option Z)
  : M (Result + (option string * PmLogContext * option Z)) :=
  match args with
  | [] => ret (inr (matchContextName, matchedContext, levelIntP))
  | arg :: rest =>
      match matchContextName with
      | None =>
          let name := PrvResolveContextNameAlias arg in
          if negb (PrvIsWildcardContextName name) then
            '(logErr, c) <- PmLogFindContext name ;;
            if failed logErr then
              printf "Context '%s' not found.\n" [AStr name] ;;
              ret (inl RESULT_PARAM_ERR)
            else DoCmdSet_args rest (Some name) c levelIntP
          else DoCmdSet_args rest (Some name) matchedContext levelIntP
      | Some _ =>
          match levelIntP with
          | None =>
              levelIntP <- PmLogStringToLevel arg ;;
              match levelIntP with
              | None =>
                  printf "Invalid level '%s'.\n" [AStr arg] ;;
                  ret (inl RESULT_PARAM_ERR)
              | Some _ =>
                  DoCmdSet_args rest matchContextName matchedContext levelIntP
              end
          | Some _ =>
              printf "Invalid parameter '%s'.\n" [AStr arg] ;;
              ret (inl RESULT_PARAM_ERR)
          end
      end
  end.

(** The loop of [DoCmdSet] over the matched contexts. *)
Fixpoint DoCmdSet_loop (contextInfos : list ContextInfo_t) (level : Z)
  : M Result :=
  match contextInfos with
  | [] => ret RESULT_OK
  | contextInfoP :: rest =>
      printf "Setting context level for '%s'.\n"
        [AStr (contextName contextInfoP)] ;;
      logErr <- PmLogSetContextLevel (context contextInfoP) level ;;
      if failed logErr then
        dbg <- PmLogGetErrDbgString logErr ;;
        printf "Error setting context log level: 0x%08X (%s)\n"
          [AInt logErr; AStr dbg] ;;
        ret RESULT_RUN_ERR
      else DoCmdSet_loop rest level
  end.

Definition DoCmdSet (argv : list string) : M Result :=
  r <- DoCmdSet_args (tl argv) None None None ;;
  match r with
  | inl result => ret result
  | inr (None, _, _) =>
      printf "Context not specified.\n" [] ;; ret RESULT_PARAM_ERR
  | inr (Some _, _, None) =>
      printf "Level not specified.\n" [] ;; ret RESULT_PARAM_ERR
  | inr (Some matchContextName, None, Some level) =>
      (* If a specific context wasn't matched, it's a wildcard match *)
      '(logErr, contextInfos) <- PrvGetContextList (Some matchContextName) ;;
      if failed logErr then
        dbg <- PmLogGetErrDbgString logErr ;;
        printf "Error getting contexts info: 0x%08X (%s)\n"
          [AInt logErr; AStr dbg] ;;
        ret RESULT_RUN_ERR
      else if numContexts contextInfos =? 0 then
        printf "No contexts matched '%s'.\n" [AStr matchContextName] ;;
        ret RESULT_RUN_ERR
      else DoCmdSet_loop contextInfos level
  | inr (Some matchContextName, Some h, Some level) =>
      printf "Setting context level for '%s'.\n" [AStr matchContextName] ;;
      logErr <- PmLogSetContextLevel (Some h) level ;;
      if failed logErr then
        dbg <- PmLogGetErrDbgString logErr ;;
        printf "Error setting context log level: 0x%08X (%s)\n"
          [AInt logErr; AStr dbg] ;;
        ret RESULT_RUN_ERR
      else ret RESULT_OK
  end.

Fixpoint DoCmdLog_args (args : list string) (contextName : option string)
    (context : PmLogContext) (levelIntP : option Z) (msg : option string)
  : M (Result + (option string * PmLogContext * option Z * option string)) :=
  match args with
  | [] => ret (inr (contextName, context, levelIntP, msg))
  | arg :: rest =>
      match contextName, levelIntP, msg with
      | None, _, _ =>
          let name := PrvResolveContextNameAlias arg in
          '(logErr, c) <- PmLogFindContext name ;;
          if failed logErr then
            printf "Invalid context '%s'.\n" [AStr arg] ;;
            ret (inl RESULT_PARAM_ERR)
          else DoCmdLog_args rest (Some name) c levelIntP msg
      | Some _, None, _ =>
          levelIntP <- PmLogStringToLevel arg ;;
          match levelIntP with
          | None =>
              printf "Invalid level '%s'.\n" [AStr arg] ;;
              ret (inl RESULT_PARAM_ERR)
          | Some level =>
              if level =? -1 then
                printf "Invalid level '%s'.\n" [AStr arg] ;;
                ret (inl RESULT_PARAM_ERR)
              else DoCmdLog_args rest contextName context levelIntP msg
          end
      | Some _, Some _, None =>
          DoCmdLog_args rest contextName context levelIntP (Some arg)
      | Some _, Some _, Some _ =>
          printf "Invalid parameter '%s'.\n" [AStr arg] ;;
          ret (inl RESULT_PARAM_ERR)
      end
  end.

Definition DoCmdLog (argv : list string) : M Result :=
  let argc := Z.of_nat (List.length argv) in
  (* if only one parameter was specified, use default context and level *)
  let '(contextName, context, levelIntP) :=
    if argc =? 2
    then (Some kPmLogGlobalContextName, kPmLogGlobalContext,
          Some kPmLogLevel_Notice)
    else (None, None, None) in
  r <- DoCmdLog_args (tl argv) contextName context levelIntP None ;;
  match r with
  | inl result => ret result
  | inr (None, _, _, _) =>
      printf "Context not specified.\n" [] ;; ret RESULT_PARAM_ERR
  | inr (Some _, _, None, _) =>
      printf "Level not specified.\n" [] ;; ret RESULT_PARAM_ERR
  | inr (Some _, _, Some _, None) =>
      printf "Message not specified.\n" [] ;; ret RESULT_PARAM_ERR
  | inr (Some _, context, Some level, Some msg) =>
      logErr <- PmLogPrint_ context level "%s" [msg] ;;
      if failed logErr then
        dbg <- PmLogGetErrDbgString logErr ;;
        printf "Error logging: 0x%08X (%s)\n" [AInt logErr; AStr dbg] ;;
        ret RESULT_RUN_ERR
      else ret RESULT_OK
  end.

Definition WriteKMsg (priority : Z) (msgStr : string) : M Result :=
  let kKMsgPath := "/dev/kmsg" in
  '(f, err) <- fopen kKMsgPath "w" ;;
  match f with
  | None =>
      printf "Error opening %s: %s" [AStr kKMsgPath; AStr (libc_strerror err)] ;;
      ret RESULT_RUN_ERR
  | Some f =>
      let priorityStr :=
        if priority >=? 0
        then mysprintf 8 ("<" ++ fmt_d priority ++ ">")
        else "" in
      '(n, err) <- fprintf f (priorityStr ++ msgStr ++ LF) ;;
      result <-
        (if n <? 0 then
           printf "Error writing %s: %s"
             [AStr kKMsgPath; AStr (libc_strerror err)] ;;
           ret RESULT_RUN_ERR
         else ret RESULT_OK) ;;
      fclose f ;;
      ret result
  end.

(** [arg[0]] *)
Definition first_byte (arg : string) : ascii :=
  match arg with
  | String c _ => c
  | EmptyString => NUL
  end.

Fixpoint DoCmdKLog_args (args : list string) (level : Z) (msg : option string)
  : M (Result + (Z * option string)) :=
  match args with
  | [] => ret (inr (level, msg))
  | arg :: rest =>
      if Ascii.eqb (first_byte arg) "-" then
        if strcmp arg "-p" =? 0 then
          match rest with
          | [] =>
              printf "Invalid parameter: -p requires value\n" [] ;;
              ret (inl RESULT_PARAM_ERR)
          | arg :: rest =>
              levelIntP <- PmLogStringToLevel arg ;;
              match levelIntP with
              | None =>
                  printf "Invalid level '%s'.\n" [AStr arg] ;;
                  ret (inl RESULT_PARAM_ERR)
              | Some level => DoCmdKLog_args rest level msg
              end
          end
        else
          printf "Invalid parameter '%s'.\n" [AStr arg] ;;
          ret (inl RESULT_PARAM_ERR)
      else
        match msg with
        | None => DoCmdKLog_args rest level (Some arg)
        | Some _ =>
            printf "Invalid parameter '%s'.\n" [AStr arg] ;;
            ret (inl RESULT_PARAM_ERR)
        end
  end.

Definition DoCmdKLog (argv : list string) : M Result :=
  r <- DoCmdKLog_args (tl argv) kPmLogLevel_Notice None ;;
  match r with
  | inl result => ret result
  | inr (_, None) =>
      printf "Message not specified.\n" [] ;; ret RESULT_PARAM_ERR
  | inr (level, Some msg) => WriteKMsg level msg
  end.

Definition DoCmdFlush : M Result :=
  '(logErr, context) <- PmLogFindContext "PmLogCtl" ;;
  if failed logErr then
    dbg <- PmLogGetErrDbgString logErr ;;
    printf "Error getting context PmLogCtl: 0x%08X (%s)\n"
      [AInt logErr; AStr dbg] ;;
    ret RESULT_RUN_ERR
  else
    logErr <- PmLogPrint context kPmLogLevel_Emergency
                "Manually Flushing Buffers" ;;
    if failed logErr then
      dbg <- PmLogGetErrDbgString logErr ;;
      printf "Error logging: 0x%08X (%s)\n" [AInt logErr; AStr dbg] ;;
      ret RESULT_RUN_ERR
    else ret RESULT_OK.

Definition DoCmdReConf (argv : list string) : M Result :=
  match tl argv with
  | arg :: _ =>
      printf "Invalid parameter '%s'.\n" [AStr arg] ;;
      ret RESULT_PARAM_ERR
  | [] =>
      logErr <- PmLogPrint_ kPmLogGlobalContext kPmLogLevel_Emergency
                  "!loglib loadconf" [] ;;
      if failed logErr then
        dbg <- PmLogGetErrDbgString logErr ;;
        printf "Error logging: 0x%08X (%s)\n" [AInt logErr; AStr dbg] ;;
        ret RESULT_RUN_ERR
      else ret RESULT_OK
  end.

Definition kLevelNotSpecified : Z := -999.

Fixpoint DoCmdDef_args (args : list string) (contextName : option string)
    (levelIntP : option Z) (level : Z)
  : M (Result + (option string * Z)) :=
  match args with
  | [] => ret (inr (contextName, level))
  | arg :: rest =>
      match contextName with
      | None =>
          let name := PrvResolveContextNameAlias arg in
          '(logErr, _) <- PmLogFindContext name ;;
          if negb (failed logErr) then
            printf "Context '%s' is already defined.\n" [AStr name] ;;
            ret (inl RESULT_PARAM_ERR)
          else DoCmdDef_args rest (Some name) levelIntP level
      | Some _ =>
          match levelIntP with
          | None =>
              levelIntP <- PmLogStringToLevel arg ;;
              match levelIntP with
              | None =>
                  printf "Invalid level '%s'.\n" [AStr arg] ;;
                  ret (inl RESULT_PARAM_ERR)
              | Some level => DoCmdDef_args rest contextName levelIntP level
              end
          | Some _ =>
              printf "Invalid parameter '%s'.\n" [AStr arg] ;;
              ret (inl RESULT_PARAM_ERR)
          end
      end
  end.

Definition DoCmdDef (argv : list string) : M Result :=
  r <- DoCmdDef_args (tl argv) None None kLevelNotSpecified ;;
  match r with
  | inl result => ret result
  | inr (None, _) =>
      printf "Context not specified.\n" [] ;; ret RESULT_PARAM_ERR
  | inr (Some contextName, level) =>
      '(logErr, context) <- PmLogGetContext contextName ;;
      if failed logErr then
        dbg <- PmLogGetErrDbgString logErr ;;
        printf "Error defining context: 0x%08X (%s)\n"
          [AInt logErr; AStr dbg] ;;
        ret RESULT_RUN_ERR
      else if negb (level =? kLevelNotSpecified) then
        logErr <- PmLogSetContextLevel context level ;;
        if failed logErr then
          dbg <- PmLogGetErrDbgString logErr ;;
          printf "Error setting context log level: 0x%08X (%s)\n"
            [AInt logErr; AStr dbg] ;;
          ret RESULT_RUN_ERR
        else ret RESULT_OK
      else ret RESULT_OK
  end.

(** The loop of [ShowUsage]: [count] levels from [level] on. *)
Fixpoint ShowUsage_loop (count : nat) (level : Z) : M unit :=
  match count with
  | O => ret tt
  | S count' =>
      levelStr <- PmLogLevelToString level ;;
      printf "  %-10s  # %d\n" [AStrP levelStr; AInt level] ;;
      ShowUsage_loop count' (level + 1)
  end.

Definition ShowUsage : M unit :=
  printf "PmLogCtl COMMAND [PARAM...]\n" [] ;;
  printf "  help                         # show usage info\n" [] ;;
  printf "  def <context> [<level>]      # define logging context\n" [] ;;
  printf "  flush                        # flush all ring buffers\n" [] ;;
  printf "  log <context> <level> <msg>  # log a message\n" [] ;;
  printf "  klog [-p <level>] <msg>      # log a kernel message\n" [] ;;
  printf "  reconf                       # re-load lib options from conf\n" [] ;;
  printf "  set <context> <level>        # set logging context level\n" [] ;;
  printf "  show [<context>]             # show logging context(s)\n" [] ;;
  printf "\n" [] ;;
  printf "Contexts:\n" [] ;;
  printf "  The global context can be specified as '.'\n" [] ;;
  printf "\n" [] ;;
  printf "Levels:\n" [] ;;
  (* for (level = -1; level <= 7; level++) *)
  ShowUsage_loop 9 (-1).

Section Main.

(** [DoCmdView] is defined in another file of the repository. *)
Variable DoCmdView : list string -> M Result.

(** The [do ... while (false)] block of [main]: the outcome. *)
Definition main_result (argv : list string) : M Result :=
  let argc := Z.of_nat (List.length argv) in
  if argc <? 2 then
    printf "No command specified.\n" [] ;; ret RESULT_PARAM_ERR
  else
    let cmd := arg_at argv 1 in
    if strcmp cmd "def" =? 0 then DoCmdDef (tl argv)
    else if strcmp cmd "log" =? 0 then DoCmdLog (tl argv)
    else if strcmp cmd "klog" =? 0 then DoCmdKLog (tl argv)
    else if strcmp cmd "reconf" =? 0 then DoCmdReConf (tl argv)
    else if strcmp cmd "set" =? 0 then DoCmdSet (tl argv)
    else if strcmp cmd "show" =? 0 then DoCmdShow (tl argv)
    else if strcmp cmd "view" =? 0 then DoCmdView (tl argv)
    else if strcmp cmd "flush" =? 0 then DoCmdFlush
    else if (strcmp cmd "help" =? 0) || (strcmp cmd "-help" =? 0) then
      ShowUsage ;; ret RESULT_HELP
    else
      printf "Invalid command '%s'\n" [AStr cmd] ;; ret RESULT_PARAM_ERR.

(** [main]: the value is the status passed to [exit]. *)
Definition main (argv : list string) : M Z :=
  result <- main_result argv ;;
  (if Result_eqb result RESULT_PARAM_ERR then SuggestHelp else ret tt) ;;
  ret (if Result_eqb result RESULT_OK then EXIT_SUCCESS else EXIT_FAILURE).

End Main.

End Commands.

(** ** A test double of the platform

    A registry of named contexts with a level each; a frozen context
    refuses a level change.  Handles are positions in the registry. *)

Module Fake.

Record Ctx : Type := mkCtx {
  ctx_name : string;
  ctx_level : Z;
  ctx_frozen : bool
}.

Record State : Type := mkState {
  registry : list Ctx;
  kmsg_errno : option Z;      (* [Some e]: /dev/kmsg does not open *)
  kmsg : list string          (* what was written to /dev/kmsg *)
}.

Definition levels : list (string * Z) :=
  [("none", -1); ("emerg", 0); ("alert", 1); ("crit", 2); ("err", 3);
   ("warning", 4); ("notice", 5); ("info", 6); ("debug", 7)].

Definition StringToLevel (s : string) : option Z :=
  option_map snd (find (fun p => String.eqb (fst p) s) levels).

Definition LevelToString (n : Z) : option string :=
  option_map fst (find (fun p => snd p =? n) levels).

Fixpoint find_index (name : string) (l : list Ctx) (i : nat) : option nat :=
  match l with
  | [] => None
  | c :: r => if String.eqb (ctx_name c) name then Some i
              else find_index name r (S i)
  end.

Definition FindContext (w : State) (name : string) : PmLogErr * option nat :=
  match find_index name (registry w) 0 with
  | Some h => (0, Some h)
  | None => (10, None)
  end.

Definition GetIndContext (w : State) (i : Z) : PmLogErr * option nat :=
  if (0 <=? i) && (i <? Z.of_nat (List.length (registry w)))
  then (0, Some (Z.to_nat i))
  else (2, None).

Definition lookup (w : State) (c : option nat) : option Ctx :=
  match c with
  | Some h => nth_error (registry w) h
  | None => None
  end.

Definition GetContextName (w : State) (c : option nat) (size : Z)
  : PmLogErr * string :=
  match lookup w c with
  | Some x => (0, substring 0 (Z.to_nat (size - 1)) (ctx_name x))
  | None => (3, "")
  end.

Definition enabledLevel (w : State) (c : option nat) : Z :=
  match lookup w c with
  | Some x => ctx_level x
  | None => -1
  end.

Fixpoint set_nth (l : list Ctx) (h : nat) (level : Z) : list Ctx :=
  match l, h with
  | [], _ => []
  | c :: r, O => mkCtx (ctx_name c) level (ctx_frozen c) :: r
  | c :: r, S h' => c :: set_nth r h' level
  end.

Definition SetContextLevel (w : State) (c : option nat) (level : Z)
  : State * PmLogErr :=
  match c, lookup w c with
  | Some h, Some x =>
      if ctx_frozen x then (w, 9)
      else if (-1 <=? level) && (level <=? 7)
      then (mkState (set_nth (registry w) h level) (kmsg_errno w) (kmsg w), 0)
      else (w, 4)
  | _, _ => (w, 3)
  end.

Definition GetContext (w : State) (name : string)
  : State * (PmLogErr * option nat) :=
  match find_index name (registry w) 0 with
  | Some h => (w, (0, Some h))
  | None =>
      (mkState (registry w ++ [mkCtx name 3 false])%list (kmsg_errno w) (kmsg w),
       (0, Some (List.length (registry w))))
  end.

Fixpoint insert {A} (cmp : A -> A -> Z) (x : A) (l : list A) : list A :=
  match l with
  | [] => [x]
  | y :: r => if cmp x y <=? 0 then x :: y :: r else y :: insert cmp x r
  end.

Fixpoint qsort {A} (cmp : A -> A -> Z) (l : list A) : list A :=
  match l with
  | [] => []
  | x :: r => insert cmp x (qsort cmp r)
  end.

Definition fopen (w : State) (path mode : string)
  : State * (option unit * Z) :=
  match kmsg_errno w with
  | Some e => (w, (None, e))
  | None => (w, (Some tt, 0))
  end.

Definition fprintf (w : State) (f : unit) (data : string) : State * (Z * Z) :=
  (mkState (registry w) (kmsg_errno w) (kmsg w ++ [data])%list,
   (Z.of_nat (String.length data), 0)).

#[global] Instance platform : Platform := {|
  World := State;
  Handle := nat;
  FILE := unit;
  kPmLogErr_None := 0;
  kPmLogErr_Unknown := 999;
  kPmLogGlobalContext := None;
  kPmLogLevel_Notice := 5;
  kPmLogLevel_Emergency := 0;
  PMLOG_MAX_NUM_CONTEXTS := 128%nat;
  PMLOG_MAX_CONTEXT_NAME_LEN := 31;
  lib_GetNumContexts := fun w => (0, Z.of_nat (List.length (registry w)));
  lib_GetIndContext := GetIndContext;
  lib_GetContextName := GetContextName;
  lib_FindContext := FindContext;
  lib_enabledLevel := enabledLevel;
  lib_GetContext := GetContext;
  lib_SetContextLevel := SetContextLevel;
  lib_Print_ := fun w _ _ _ _ => (w, 0);
  lib_Print := fun w _ _ _ => (w, 0);
  lib_StringToLevel := StringToLevel;
  lib_LevelToString := LevelToString;
  lib_GetErrDbgString := fun _ => "error";
  libc_qsort := @qsort;
  libc_strerror := fun _ => "error";
  os_fopen := fopen;
  os_fprintf := fprintf;
  os_fclose := fun w _ => w
|}.

(** Three contexts, the second frozen; /dev/kmsg opens. *)
Definition w3 : State :=
  mkState [mkCtx "beta" 3 true; mkCtx "alpha" 5 false; mkCtx "Bravo" 7 false]
          None [].

(** No context at all. *)
Definition w0 : State := mkState [] None [].

(** The entry of the context at position [h]. *)
Definition info (h : nat) (name : string) : ContextInfo_t :=
  mkContextInfo (Some h) name.

(** [view] is not modelled: a stand-in that does nothing. *)
Definition DoCmdView (argv : list string) : M Result := ret RESULT_OK.

End Fake.

(** ** A test double whose library fails

    As [Fake], except that an empty registry cannot report its count,
    the name of the context at position 1 cannot be read, and the
    context "full" cannot be created. *)

Module Faulty.

Definition GetNumContexts (w : Fake.State) : PmLogErr * Z :=
  match Fake.registry w with
  | [] => (7, 0)
  | _ => (0, Z.of_nat (List.length (Fake.registry w)))
  end.

Definition GetContextName (w : Fake.State) (c : option nat) (size : Z)
  : PmLogErr * string :=
  match c with
  | Some 1%nat => (5, "")
  | _ => Fake.GetContextName w c size
  end.

Definition GetContext (w : Fake.State) (name : string)
  : Fake.State * (PmLogErr * option nat) :=
  if String.eqb name "full" then (w, (8, None)) else Fake.GetContext w name.

Definition platform : Platform := {|
  World := Fake.State;
  Handle := nat;
  FILE := unit;
  kPmLogErr_None := 0;
  kPmLogErr_Unknown := 999;
  kPmLogGlobalContext := None;
  kPmLogLevel_Notice := 5;
  kPmLogLevel_Emergency := 0;
  PMLOG_MAX_NUM_CONTEXTS := 128%nat;
  PMLOG_MAX_CONTEXT_NAME_LEN := 31;
  lib_GetNumContexts := GetNumContexts;
  lib_GetIndContext := Fake.GetIndContext;
  lib_GetContextName := GetContextName;
  lib_FindContext := Fake.FindContext;
  lib_enabledLevel := Fake.enabledLevel;
  lib_GetContext := GetContext;
  lib_SetContextLevel := Fake.SetContextLevel;
  lib_Print_ := fun w _ _ _ _ => (w, 0);
  lib_Print := fun w _ _ _ => (w, 0);
  lib_StringToLevel := Fake.StringToLevel;
  lib_LevelToString := Fake.LevelToString;
  lib_GetErrDbgString := fun _ => "error";
  libc_qsort := @Fake.qsort;
  libc_strerror := fun _ => "error";
  os_fopen := Fake.fopen;
  os_fprintf := Fake.fprintf;
  os_fclose := fun w _ => w
|}.

(** A registry with the tool's own context and the global one. *)
Definition wctl : Fake.State :=
  Fake.mkState
    [Fake.mkCtx "PmLogCtl" 5 false; Fake.mkCtx "<global>" 5 false] None [].

End Faulty.

(** ** Vocabulary of the properties *)

Section Vocabulary.
Context {P : Platform}.

(** What the C standard asks of a comparison function given to qsort:
    its results define a total ordering.  The sign of the result tells
    less, equal or greater, so swapping the arguments swaps the sign,
    and "not after" is transitive. *)
Definition cmp_consistent {A} (cmp : A -> A -> Z) : Prop :=
  (forall a b, Z.sgn (cmp b a) = - Z.sgn (cmp a b)) /\
  (forall a b c, cmp a b <= 0 -> cmp b c <= 0 -> cmp a c <= 0).


(** With such a function [qsort] rearranges the array: nothing is lost
    or invented. *)
Definition qsort_permutes : Prop :=
  forall (A : Type) (cmp : A -> A -> Z) (l : list A),
    cmp_consistent cmp -> Permutation l (libc_qsort A cmp l).

(** PmLogLib.h: [kPmLogErr_Unknown] is an error code, not
    [kPmLogErr_None]. *)
Definition unknown_is_error : Prop := kPmLogErr_Unknown <> kPmLogErr_None.



(** The registry of [w] holds [n] contexts, [n >= 1], each with a
    readable name, and no name matches [pattern]. *)
Definition none_match (w : World) (pattern : option string) (n : Z) : Prop :=
  lib_GetNumContexts w = (kPmLogErr_None, n) /\ 1 <= n /\
  forall i, 0 <= i < n ->
    exists c name,
      lib_GetIndContext w i = (kPmLogErr_None, c) /\
      lib_GetContextName w c (PMLOG_MAX_CONTEXT_NAME_LEN + 1)
        = (kPmLogErr_None, name) /\
      PrvMatchContextName name pattern = false.

(** The contexts of the registry from index [i] on, [count] of them, in
    the registry's order; [None] when one cannot be read. *)
Fixpoint registry_entries (w : World) (count : nat) (i : Z)
  : option (list ContextInfo_t) :=
  match count with
  | O => Some []
  | S count' =>
      let '(e, c) := lib_GetIndContext w i in
      if failed e then None
      else
        let '(e', name) :=
          lib_GetContextName w c (PMLOG_MAX_CONTEXT_NAME_LEN + 1) in
        if failed e' then None
        else option_map (cons (mkContextInfo c name))
               (registry_entries w count' (i + 1))
  end.

(** The entries whose name matches the pattern. *)
Definition matched (pattern : option string) (l : list ContextInfo_t)
  : list ContextInfo_t :=
  filter (fun c => PrvMatchContextName (contextName c) pattern) l.

(** The events that only read the registry or convert a token. *)
Definition read_only (e : Event) : Prop :=
  match e with
  | EvStorePastArray _
  | EvGetContext _ | EvSetContextLevel _ _ | EvPrint_ _ _ _ _ | EvPrint _ _ _
  | EvFopen _ _ | EvFprintf _ | EvFclose => False
  | _ => True
  end.

(** The events an enumeration can leave: its queries, and a store past
    the array. *)
Definition enumeration_event (e : Event) : Prop :=
  match e with
  | EvStorePastArray _
  | EvGetNumContexts | EvGetIndContext _ | EvGetContextName _ => True
  | _ => False
  end.

(** The events of the enumeration itself. *)
Definition enum_query (e : Event) : Prop :=
  match e with
  | EvGetNumContexts | EvGetIndContext _ | EvGetContextName _ => True
  | _ => False
  end.

(** The level-set calls of a trace, in order. *)
Fixpoint set_calls (t : list Event) : list (PmLogContext * Z) :=
  match t with
  | [] => []
  | EvSetContextLevel c level :: t => (c, level) :: set_calls t
  | _ :: t => set_calls t
  end.

(** The registry after the level-set calls on [cs], in order. *)
Fixpoint world_after_sets (w : World) (level : Z) (cs : list ContextInfo_t)
  : World :=
  match cs with
  | [] => w
  | c :: r =>
      world_after_sets (fst (lib_SetContextLevel w (context c) level)) level r
  end.

(** Each of the level-set calls on [cs], made in order from [w], succeeds. *)
Fixpoint sets_succeed (w : World) (level : Z) (cs : list ContextInfo_t)
  : Prop :=
  match cs with
  | [] => True
  | c :: r =>
      snd (lib_SetContextLevel w (context c) level) = kPmLogErr_None /\
      sets_succeed (fst (lib_SetContextLevel w (context c) level)) level r
  end.

(** [rest] is empty, or the level-set call on its first context fails. *)
Definition first_fails (w : World) (level : Z) (rest : list ContextInfo_t)
  : Prop :=
  match rest with
  | [] => True
  | c :: _ => snd (lib_SetContextLevel w (context c) level) <> kPmLogErr_None
  end.

(** The events by which arguments are checked: lookups, conversions and
    messages; nothing that creates a context, sets a level, emits a
    message or writes to the device. *)
Definition validation (e : Event) : Prop :=
  match e with
  | EvPrintf _ _ | EvFindContext _ | EvStringToLevel _ => True
  | _ => False
  end.

(** A command whose parameter errors come before any effect: the world
    is as it was and only arguments were checked. *)
Definition param_error_clean (cmd : list string -> M Result) : Prop :=
  forall argv w w' t,
    cmd argv w = (RESULT_PARAM_ERR, w', t) ->
    w' = w /\ Forall validation t.

(** The data written to the kernel message device, in order. *)
Fixpoint kmsg_written (t : list Event) : list string :=
  match t with
  | [] => []
  | EvFprintf data :: t => data :: kmsg_written t
  | _ :: t => kmsg_written t
  end.

(** The line [klog] is to write for a level and a message. *)
Definition klog_line (level : Z) (msg : string) : string :=
  (if level >=? 0 then "<" ++ fmt_d level ++ ">" else "") ++ msg ++ LF.

(** The arguments of [klog] that are not an option: what is left when
    each "-p" goes with the argument after it. *)
Fixpoint klog_positional (args : list string) : list string :=
  match args with
  | [] => []
  | arg :: rest =>
      if String.eqb arg "-p" then
        match rest with
        | [] => []
        | _ :: rest' => klog_positional rest'
        end
      else arg :: klog_positional rest
  end.

(** The level of the last "-p" of the arguments, [level] when there is
    none. *)
Fixpoint klog_level (args : list string) (level : Z) : Z :=
  match args with
  | [] => level
  | arg :: rest =>
      if String.eqb arg "-p" then
        match rest with
        | [] => level
        | value :: rest' =>
            klog_level rest'
              (match lib_StringToLevel value with
               | Some l => l
               | None => level
               end)
        end
      else klog_level rest level
  end.

End Vocabulary.

(** ** Vocabulary of the further properties *)

Section MoreVocabulary.
Context {P : Platform}.

(** The events of a trace that can change something: the calls that
    can change the registry, the log or the device, and a store past
    the array. *)
Fixpoint effects (t : list Event) : list Event :=
  match t with
  | [] => []
  | e :: t =>
      match e with
      | EvStorePastArray _
      | EvGetContext _ | EvSetContextLevel _ _ | EvPrint_ _ _ _ _
      | EvPrint _ _ _ | EvFopen _ _ | EvFprintf _ | EvFclose =>
          e :: effects t
      | _ => effects t
      end
  end.

(** What a trace prints on standard output: the calls of printf. *)
Fixpoint printed (t : list Event) : list (string * list Arg) :=
  match t with
  | [] => []
  | EvPrintf fmt args :: t => (fmt, args) :: printed t
  | _ :: t => printed t
  end.

(** The library calls of a trace: printf and what is not a call left
    out. *)
Fixpoint library_calls (t : list Event) : list Event :=
  match t with
  | [] => []
  | EvPrintf _ _ :: t | EvStorePastArray _ :: t => library_calls t
  | e :: t => e :: library_calls t
  end.

(** The line [ShowContext] prints for an entry in the world [w]. *)
Definition show_line (w : World) (c : ContextInfo_t) : string * list Arg :=
  ("Context '%s' = %s\n",
   [AStr (contextName c);
    AStr (match lib_LevelToString (lib_enabledLevel w (context c)) with
          | Some s => s
          | None => "Unknown"
          end)]).

(** The bytes of a C string, letters in lower case. *)
Fixpoint fold_case (s : string) : list Z :=
  match s with
  | EmptyString => []
  | String c r =>
      if Ascii.eqb c NUL then [] else tolower (code c) :: fold_case r
  end.

(** Why the context at index [i] cannot be read: the error of
    PmLogGetIndContext or of PmLogGetContextName, if any. *)
Definition read_error (w : World) (i : Z) : option PmLogErr :=
  let '(e, c) := lib_GetIndContext w i in
  if failed e then Some e
  else
    let '(e', _) := lib_GetContextName w c (PMLOG_MAX_CONTEXT_NAME_LEN + 1) in
    if failed e' then Some e' else None.

(** No enumeration query of the trace is for an index after [k]. *)
Definition queries_up_to (k : Z) (t : list Event) : Prop :=
  Forall (fun e => match e with
                   | EvGetIndContext i => i <= k
                   | _ => True
                   end) t.

(** 1 for a value that is known, 0 for one that is not. *)
Definition known {A} (o : option A) : nat :=
  match o with Some _ => 1%nat | None => 0%nat end.

(** The commands of [main]. *)
Definition command_names : list string :=
  ["def"; "log"; "klog"; "reconf"; "set"; "show"; "view"; "flush"; "help";
   "-help"].

End MoreVocabulary.

(** * Properties *)

(** ** The string functions *)

Local Arguments Ascii.eqb : simpl never.

Lemma code_inj c1 c2 : code c1 = code c2 -> c1 = c2.
Proof.
  unfold code. intros H. apply Nat2Z.inj in H.
  rewrite <- (ascii_nat_embedding c1), <- (ascii_nat_embedding c2).
  now rewrite H.
Qed.

Lemma code_diff c1 c2 : c1 <> c2 -> code c1 - code c2 <> 0.
Proof. intros N E. apply N, code_inj. lia. Qed.

Lemma code_NUL c : code c = 0 -> c = NUL.
Proof. intros H. apply code_inj. exact H. Qed.

Lemma cstring_cons c s : cstring (String c s) <-> c <> NUL /\ cstring s.
Proof.
  unfold cstring. simpl. split.
  - intros H. split; [intros E | intros I]; apply H; auto.
  - intros [H1 H2] [E | I]; [apply H1; now symmetry | now apply H2].
Qed.

Lemma contains_cons x c s :
  contains x (String c s) <-> c = x \/ contains x s.
Proof. unfold contains. simpl. tauto. Qed.

Lemma cstring_nil : cstring "".
Proof. intros []. Qed.

(** On C strings [strcmp] returns 0 exactly on equal strings. *)
Lemma strcmp_eq s1 s2 :
  cstring s1 -> cstring s2 -> (strcmp s1 s2 = 0 <-> s1 = s2).
Proof.
  revert s2. induction s1 as [|c1 r1 IH]; intros [|c2 r2] H1 H2; simpl.
  - tauto.
  - apply cstring_cons in H2 as [N2 _].
    split; [intros E | discriminate].
    exfalso. apply N2, code_NUL. lia.
  - apply cstring_cons in H1 as [N1 _].
    split; [intros E | discriminate].
    exfalso. apply N1, code_NUL. lia.
  - apply cstring_cons in H1 as [N1 H1], H2 as [N2 H2].
    destruct (Ascii.eqb_spec c1 c2) as [->|N]; simpl.
    + destruct (Ascii.eqb_spec c2 NUL) as [E|_]; [contradiction|].
      rewrite (IH r2 H1 H2). split; [now intros -> | now intros [= ->]].
    + split; [intros E; now apply code_diff in E
             | intros [= E _]; contradiction].
Qed.

(** [strchr] finds nothing exactly when the byte does not occur. *)
Lemma strchr_None s c :
  c <> NUL -> cstring s -> (strchr s c = None <-> ~ contains c s).
Proof.
  intros Hc. induction s as [|x r IH]; intros Hs; cbn [strchr].
  - destruct (Ascii.eqb_spec NUL c) as [E|_]; [now (exfalso; apply Hc)|].
    split; [intros _ [] | reflexivity].
  - apply cstring_cons in Hs as [Nx Hr]. rewrite contains_cons.
    specialize (IH Hr).
    destruct (Ascii.eqb_spec x c) as [->|N].
    + split; [discriminate | intros H; exfalso; apply H; now left].
    + destruct (Ascii.eqb_spec x NUL) as [E|_]; [contradiction|].
      destruct (strchr r c) as [n|]; cbn [option_map].
      * split; [discriminate|]. intros H. exfalso.
        assert (B : ~ contains c r) by tauto.
        apply IH in B. discriminate.
      * split; [|reflexivity]. intros _ [E'|I]; [contradiction|].
        now apply (proj1 IH).
Qed.

(** The first occurrence: after a prefix without [c] and without [NUL],
    [strchr] stops at [c], whatever follows. *)
Lemma strchr_first pre c rest :
  cstring pre -> ~ contains c pre ->
  strchr (pre ++ String c rest) c = Some (String.length pre).
Proof.
  induction pre as [|x r IH]; intros Hs Hc; cbn [strchr append String.length].
  - now rewrite Ascii.eqb_refl.
  - apply cstring_cons in Hs as [Nx Hr]. rewrite contains_cons in Hc.
    destruct (Ascii.eqb_spec x c) as [E|_]; [tauto|].
    destruct (Ascii.eqb_spec x NUL) as [E|_]; [contradiction|].
    rewrite IH by tauto. reflexivity.
Qed.

(** [memcmp] over the length of a prefix without [NUL] is the prefix
    test: a name shorter than the prefix differs at its terminator. *)
Lemma memcmp_prefix pre : forall s rest,
  cstring pre ->
  (memcmp s (pre ++ rest) (String.length pre) =? 0) = prefix pre s.
Proof.
  induction pre as [|x r IH]; intros s rest Hp.
  - now destruct s.
  - apply cstring_cons in Hp as [Nx Hr].
    cbn [memcmp append String.length]. destruct s as [|y s]; cbn [prefix].
    + destruct (Ascii.eqb_spec NUL x) as [E|N]; [now (exfalso; apply Nx)|].
      cbn [negb]. apply Z.eqb_neq. now apply code_diff.
    + destruct (ascii_dec x y) as [->|N].
      * rewrite Ascii.eqb_refl. cbn [negb]. now apply IH.
      * destruct (Ascii.eqb_spec y x) as [E|_]; [now (exfalso; apply N)|].
        cbn [negb]. apply Z.eqb_neq. apply code_diff. congruence.
Qed.

(** Bytes left in the name buffer after the terminator do not change
    the comparison: it is settled at the terminator at the latest. *)
Lemma memcmp_stale_bytes pre : forall s stale rest,
  cstring pre -> cstring s ->
  memcmp (s ++ String NUL stale) (pre ++ rest) (String.length pre) =
  memcmp s (pre ++ rest) (String.length pre).
Proof.
  induction pre as [|x r IH]; intros s stale rest Hp Hs; [reflexivity|].
  apply cstring_cons in Hp as [Nx Hr].
  destruct s as [|y s]; cbn [memcmp append String.length].
  - destruct (Ascii.eqb_spec NUL x) as [E|_]; [now (exfalso; apply Nx)|].
    reflexivity.
  - apply cstring_cons in Hs as [_ Hs].
    destruct (Ascii.eqb y x); cbn [negb]; [now apply IH | reflexivity].
Qed.

Lemma star_not_NUL : "*"%char <> NUL.
Proof. discriminate. Qed.

(** ** Name matching *)

(** C1.  A null pattern matches every name.  A pattern without '*'
    matches exactly the name equal to it, byte for byte.  A pattern with
    a '*' matches exactly the names that start with the text before its
    first '*' (every name when that text is empty); what follows the
    '*' has no influence. *)
Theorem PrvMatchContextName_spec (s : string) :
  PrvMatchContextName s None = true /\
  (forall p, cstring s -> cstring p -> ~ contains "*" p ->
     (PrvMatchContextName s (Some p) = true <-> s = p)) /\
  (forall pre suf, cstring pre -> ~ contains "*" pre ->
     PrvMatchContextName s (Some (pre ++ String "*" suf)) = prefix pre s /\
     (pre = "" -> PrvMatchContextName s (Some (pre ++ String "*" suf)) = true)).
Proof.
  split; [reflexivity|]. split.
  - intros p Hs Hp Hstar. unfold PrvMatchContextName.
    rewrite (proj2 (strchr_None p "*" star_not_NUL Hp) Hstar).
    rewrite <- (strcmp_eq s p Hs Hp).
    destruct (Z.eqb_spec (strcmp s p) 0); split; congruence.
  - intros pre suf Hp Hstar. unfold PrvMatchContextName.
    rewrite (strchr_first pre "*" suf Hp Hstar).
    destruct pre as [|x r].
    + split; [now destruct s | reflexivity].
    + split; [|discriminate].
      cbn [String.length Nat.eqb].
      change (S (String.length r)) with (String.length (String x r)).
      rewrite memcmp_prefix by exact Hp.
      now destruct (prefix (String x r) s).
Qed.

Lemma cstring_beta : cstring "beta".
Proof. unfold cstring. simpl. intuition discriminate. Qed.

Lemma PrvMatchContextName_spec_witness :
  (PrvMatchContextName "beta" (Some "beta") = true <-> "beta" = "beta") /\
  PrvMatchContextName "beta" (Some ("be" ++ String "*" "zz")) =
    prefix "be" "beta".
Proof.
  destruct (PrvMatchContextName_spec "beta") as [_ [Exact Wild]].
  split.
  - apply Exact; try exact cstring_beta.
    unfold contains. simpl. intuition discriminate.
  - refine (proj1 (Wild "be" "zz" _ _)).
    + unfold cstring. simpl. intuition discriminate.
    + unfold contains. simpl. intuition discriminate.
Defined.

(** C10.  The alias "." resolves to the global context's name, any
    other name to itself, and resolving twice is resolving once. *)
Theorem PrvResolveContextNameAlias_spec :
  PrvResolveContextNameAlias "." = kPmLogGlobalContextName /\
  (forall s, cstring s -> s <> "." -> PrvResolveContextNameAlias s = s) /\
  (forall s, PrvResolveContextNameAlias (PrvResolveContextNameAlias s) =
             PrvResolveContextNameAlias s).
Proof.
  split; [reflexivity|]. split.
  - intros s Hs N. unfold PrvResolveContextNameAlias.
    destruct (Z.eqb_spec (strcmp s ".") 0) as [E|_]; [|reflexivity].
    exfalso. apply N. apply strcmp_eq; [exact Hs | | exact E].
    unfold cstring. simpl. intuition discriminate.
  - intros s. unfold PrvResolveContextNameAlias.
    destruct (strcmp s "." =? 0) eqn:E; [reflexivity|].
    now rewrite E.
Qed.

Lemma PrvResolveContextNameAlias_spec_witness :
  PrvResolveContextNameAlias "beta" = "beta".
Proof.
  apply PrvResolveContextNameAlias_spec; [exact cstring_beta | discriminate].
Defined.

(** ** The order of [strcasecmp] *)

Lemma code_nonneg c : 0 <= code c.
Proof. unfold code. lia. Qed.

Lemma tolower_nonneg c : 0 <= tolower (code c).
Proof.
  pose proof (code_nonneg c). unfold tolower.
  destruct ((65 <=? code c) && (code c <=? 90)); lia.
Qed.

Lemma tolower_zero c : tolower (code c) = 0 <-> c = NUL.
Proof.
  split.
  - intros H. apply code_NUL. revert H. unfold tolower.
    destruct (Z.leb_spec 65 (code c)); cbn [andb]; [|lia].
    destruct (code c <=? 90); lia.
  - now intros ->.
Qed.

(** Boolean tests of a goal about [strcasecmp], turned into facts. *)
Ltac key_facts :=
  repeat match goal with
  | |- context [Ascii.eqb ?c NUL] =>
      let E := fresh "E" in
      destruct (Ascii.eqb_spec c NUL) as [E|E];
      [apply tolower_zero in E | rewrite <- tolower_zero in E]
  | H : context [Ascii.eqb ?c NUL] |- _ =>
      let E := fresh "E" in
      destruct (Ascii.eqb_spec c NUL) as [E|E];
      [apply tolower_zero in E | rewrite <- tolower_zero in E]
  | |- context [?d =? 0] => destruct (Z.eqb_spec d 0)
  | H : context [?d =? 0] |- _ => destruct (Z.eqb_spec d 0)
  end; cbn [negb] in *.

Lemma strcasecmp_antisym s1 : forall s2,
  strcasecmp s2 s1 = - strcasecmp s1 s2.
Proof.
  induction s1 as [|c1 r1 IH]; intros [|c2 r2]; cbn [strcasecmp]; try lia.
  key_facts; try lia. apply IH.
Qed.

Lemma strcasecmp_trans s1 : forall s2 s3,
  strcasecmp s1 s2 <= 0 -> strcasecmp s2 s3 <= 0 -> strcasecmp s1 s3 <= 0.
Proof.
  induction s1 as [|c1 r1 IH]; intros [|c2 r2] [|c3 r3];
    cbn [strcasecmp]; intros H1 H2;
    repeat match goal with
           | c : ascii |- _ =>
               lazymatch goal with
               | _ : 0 <= tolower (code c) |- _ => fail
               | _ => pose proof (tolower_nonneg c)
               end
           end;
    key_facts; try lia.
  now apply (IH r2 r3).
Qed.

(** ** Enumeration *)

(** Unfold the calls of a computation applied to a world. *)
Ltac run :=
  unfold PmLogGetNumContexts, PmLogGetIndContext, PmLogGetContextName,
    PmLogFindContext, PmLogStringToLevel, PmLogGetErrDbgString,
    PmLogLevelToString, PmLogSetContextLevel, PmLogGetContext,
    PmLogPrint_, PmLogPrint, fopen, fprintf, fclose, enabledLevel,
    slot_store;
  unfold bind, ret, query, call, printf; cbn beta iota.

Section Enumeration.
Context {P : Platform}.

Lemma SortCmpContextInfoByName_consistent :
  cmp_consistent SortCmpContextInfoByName.
Proof.
  unfold SortCmpContextInfoByName. split.
  - intros a b. rewrite (strcasecmp_antisym (contextName a) (contextName b)).
    apply Z.sgn_opp.
  - intros a b c. apply strcasecmp_trans.
Qed.

(** The array has a slot. *)
Lemma contextInfos_slots_pos : 0 < contextInfos_slots.
Proof. unfold contextInfos_slots. lia. Qed.

(** The loop queries, and stores in its slot: the world is left as it
    was. *)
Lemma PrvGetContextList_loop_reads m count : forall i infos w,
  exists r t,
    PrvGetContextList_loop m count i infos w = (r, w, t) /\
    Forall enumeration_event t.
Proof.
  induction count as [|count IH]; intros i infos w;
    cbn [PrvGetContextList_loop]; run.
  - eexists _, _. split; [reflexivity | constructor].
  - destruct (numContexts infos >=? contextInfos_slots);
      destruct (lib_GetIndContext w i) as [e c];
      (destruct (failed e);
       [eexists _, _; split; [reflexivity | repeat constructor]|]);
      destruct (lib_GetContextName w c _) as [e' name];
      (destruct (failed e');
       [eexists _, _; split; [reflexivity | repeat constructor]|]);
      (destruct (negb (PrvMatchContextName name m));
       [destruct (IH (i + 1) infos w) as (r & t & -> & Ht);
        eexists _, _; split; [reflexivity | repeat constructor; exact Ht]|]).
    + eexists _, _. split; [reflexivity | repeat constructor].
    + destruct (IH (i + 1) (infos ++ [mkContextInfo c name])%list w)
        as (r & t & -> & Ht).
      eexists _, _. split; [reflexivity | repeat constructor; exact Ht].
Qed.

(** Once every slot holds an accepted entry, an iteration begins with a
    store past the array. *)
Lemma PrvGetContextList_loop_past_array m count i infos w :
  contextInfos_slots <= numContexts infos ->
  exists r t,
    PrvGetContextList_loop m (S count) i infos w =
      (r, w, EvStorePastArray (numContexts infos) :: t).
Proof.
  intros Hfull.
  destruct (PrvGetContextList_loop_reads m (S count) i infos w)
    as (r & t & E & _).
  rewrite E. revert E. cbn [PrvGetContextList_loop]. run.
  destruct (Z.geb_spec (numContexts infos) contextInfos_slots); [|lia].
  cbn beta iota.
  destruct (let '(logErr, c) := lib_GetIndContext w i in _) as [[r1 w1] t1].
  intros [= <- <- <-]. now eexists _, _.
Qed.

Lemma failed_true e : failed e = true <-> e <> kPmLogErr_None.
Proof.
  unfold failed. destruct (Z.eqb_spec e kPmLogErr_None); cbn [negb];
    split; congruence.
Qed.

Lemma failed_None : failed kPmLogErr_None = false.
Proof. unfold failed. now rewrite Z.eqb_refl. Qed.


(** Enumeration leaves the world as it was. *)
Lemma PrvGetContextList_reads m w :
  exists r t,
    PrvGetContextList m w = (r, w, t) /\ Forall enumeration_event t.
Proof.
  unfold PrvGetContextList. run.
  destruct (lib_GetNumContexts w) as [e n].
  destruct (failed e).
  { eexists _, _. split; [reflexivity | repeat constructor]. }
  destruct (n <=? 0).
  { eexists _, _. split; [reflexivity | repeat constructor]. }
  destruct (PrvGetContextList_loop_reads m (Z.to_nat n) 0 [] w)
    as ([early infos] & t & -> & Ht).
  destruct early; eexists _, _;
    (split; [reflexivity | constructor; [exact I|]]);
    rewrite app_nil_r; exact Ht.
Qed.



Lemma enum_query_read_only t : Forall enum_query t -> Forall read_only t.
Proof.
  apply Forall_impl. now intros [].
Qed.

Lemma read_only_set_calls t : Forall read_only t -> set_calls t = [].
Proof.
  induction 1 as [|e t He _ IH]; [reflexivity|].
  destruct e; cbn [set_calls]; try exact IH. destruct He.
Qed.

Lemma enumeration_set_calls t :
  Forall enumeration_event t -> set_calls t = [].
Proof.
  induction 1 as [|e t He _ IH]; [reflexivity|].
  destruct e; cbn [set_calls]; try exact IH. destruct He.
Qed.

Lemma set_calls_app t1 t2 :
  set_calls (t1 ++ t2) = (set_calls t1 ++ set_calls t2)%list.
Proof.
  induction t1 as [|e t1 IH]; [reflexivity|].
  destruct e; cbn [app set_calls]; now rewrite ?IH.
Qed.

(** When no name matches, the loop accepts nothing; its slot is in the
    array when an accepted entry leaves room. *)
Lemma PrvGetContextList_loop_none m w count : forall i infos,
  numContexts infos < contextInfos_slots ->
  (forall j, i <= j < i + Z.of_nat count ->
     exists c name,
       lib_GetIndContext w j = (kPmLogErr_None, c) /\
       lib_GetContextName w c (PMLOG_MAX_CONTEXT_NAME_LEN + 1)
         = (kPmLogErr_None, name) /\
       PrvMatchContextName name m = false) ->
  exists t,
    PrvGetContextList_loop m count i infos w = ((None, infos), w, t) /\
    Forall enum_query t.
Proof.
  induction count as [|count IH]; intros i infos Hroom H;
    cbn [PrvGetContextList_loop]; run.
  - exists []. split; [reflexivity | constructor].
  - destruct (Z.geb_spec (numContexts infos) contextInfos_slots); [lia|].
    destruct (H i ltac:(lia)) as (c & name & Hi & Hn & Hm).
    rewrite Hi, failed_None, Hn, failed_None, Hm. cbn [negb].
    destruct (IH (i + 1) infos Hroom) as (t & -> & Ht).
    { intros j Hj. apply H. lia. }
    eexists. split; [reflexivity | repeat constructor; exact Ht].
Qed.

Lemma PrvGetContextList_none m w n :
  none_match w m n ->
  exists t,
    PrvGetContextList m w = ((kPmLogErr_None, []), w, EvGetNumContexts :: t) /\
    Forall enum_query t.
Proof.
  intros (Hn & Hpos & H). unfold PrvGetContextList. run.
  rewrite Hn, failed_None.
  destruct (Z.leb_spec n 0) as [?|_]; [lia|].
  destruct (PrvGetContextList_loop_none m w (Z.to_nat n) 0 []) as (t & -> & Ht).
  { exact contextInfos_slots_pos. }
  { intros j Hj. apply H. lia. }
  exists t. rewrite app_nil_r. split; [reflexivity | exact Ht].
Qed.

(** With room in the array for every context still to come, the loop
    stores in the array only, and accepts the matching entries in the
    registry's order. *)
Lemma PrvGetContextList_loop_matched m w count : forall i infos all,
  registry_entries w count i = Some all ->
  numContexts infos + Z.of_nat count <= contextInfos_slots ->
  exists t,
    PrvGetContextList_loop m count i infos w =
      ((None, (infos ++ matched m all)%list), w, t) /\
    Forall enum_query t.
Proof.
  induction count as [|count IH]; intros i infos all;
    cbn [PrvGetContextList_loop registry_entries]; run.
  - intros [= <-] _. exists []. cbn [matched filter]. rewrite app_nil_r.
    split; [reflexivity | constructor].
  - intros R Hcap.
    destruct (Z.geb_spec (numContexts infos) contextInfos_slots); [lia|].
    revert R.
    destruct (lib_GetIndContext w i) as [e c].
    destruct (failed e); [discriminate|].
    destruct (lib_GetContextName w c _) as [e' name].
    destruct (failed e'); [discriminate|].
    destruct (registry_entries w count (i + 1)) as [rest|] eqn:R;
      [|discriminate].
    intros [= <-]. unfold matched. cbn [filter contextName].
    fold (matched m rest).
    destruct (PrvMatchContextName name m); cbn [negb].
    + destruct (IH (i + 1) (infos ++ [mkContextInfo c name])%list rest R)
        as (t & -> & Ht).
      { unfold numContexts in *. rewrite length_app. cbn [List.length]. lia. }
      rewrite <- app_assoc. cbn [app]. eexists.
      split; [reflexivity | repeat constructor; exact Ht].
    + destruct (IH (i + 1) infos rest R) as (t & -> & Ht); [lia|].
      eexists. split; [reflexivity | repeat constructor; exact Ht].
Qed.

(** On a registry that can be read and has no more contexts than the
    array has slots, enumeration succeeds within the array: its list is
    what [qsort] makes of the matching contexts. *)
Lemma PrvGetContextList_in_bounds m w n all :
  lib_GetNumContexts w = (kPmLogErr_None, n) ->
  1 <= n <= contextInfos_slots ->
  registry_entries w (Z.to_nat n) 0 = Some all ->
  exists t,
    PrvGetContextList m w =
      ((kPmLogErr_None,
        if numContexts (matched m all) >? 0
        then libc_qsort _ SortCmpContextInfoByName (matched m all)
        else matched m all), w, EvGetNumContexts :: t) /\
    Forall enum_query t.
Proof.
  intros Hn Hpos R. unfold PrvGetContextList. run.
  rewrite Hn, failed_None.
  destruct (Z.leb_spec n 0) as [?|_]; [lia|].
  destruct (PrvGetContextList_loop_matched m w (Z.to_nat n) 0 [] all R)
    as (t & -> & Ht).
  { unfold numContexts. cbn [List.length]. lia. }
  cbn [app]. exists t. rewrite app_nil_r. split; [reflexivity | exact Ht].
Qed.

(** X3.  On a registry that can be read and has no more contexts than
    the array has slots, enumeration returns the matching contexts, all
    of them and nothing else, rearranged by [qsort], without a store
    past the array. *)
Lemma PrvGetContextList_matched m w n all :
  qsort_permutes ->
  lib_GetNumContexts w = (kPmLogErr_None, n) ->
  1 <= n <= contextInfos_slots ->
  registry_entries w (Z.to_nat n) 0 = Some all ->
  exists l t,
    PrvGetContextList m w = ((kPmLogErr_None, l), w, t) /\
    Permutation (matched m all) l /\ Forall enum_query t.
Proof.
  intros Hq Hn Hpos R.
  destruct (PrvGetContextList_in_bounds m w n all Hn Hpos R) as (t & -> & Ht).
  eexists _, _. split; [reflexivity|]. split.
  - destruct (numContexts (matched m all) >? 0); [|reflexivity].
    apply Hq, SortCmpContextInfoByName_consistent.
  - constructor; [exact I | exact Ht].
Qed.


(** Enumeration of a registry that reports no context. *)
Lemma PrvGetContextList_empty m w n :
  lib_GetNumContexts w = (kPmLogErr_None, n) -> n <= 0 ->
  PrvGetContextList m w = ((kPmLogErr_Unknown, []), w, [EvGetNumContexts]).
Proof.
  intros Hn Hle. unfold PrvGetContextList. run.
  rewrite Hn, failed_None.
  destruct (Z.leb_spec n 0) as [_|?]; [reflexivity | lia].
Qed.

End Enumeration.

(** ** Formatting the priority *)

Lemma substring_all s : forall n,
  (String.length s <= n)%nat -> substring 0 n s = s.
Proof.
  induction s as [|c s IH]; intros [|n] H; cbn [String.length] in H;
    try reflexivity; try lia.
  cbn [substring]. rewrite IH by lia. reflexivity.
Qed.

Lemma length_append s t :
  String.length (s ++ t) = (String.length s + String.length t)%nat.
Proof.
  induction s as [|c s IH]; cbn [append String.length]; [reflexivity|].
  now rewrite IH.
Qed.

(** A priority of at most five characters fits the buffer of 8 bytes. *)
Lemma mysprintf_level level :
  (String.length (fmt_d level) <= 5)%nat ->
  mysprintf 8 ("<" ++ fmt_d level ++ ">") = "<" ++ fmt_d level ++ ">".
Proof.
  intros H. unfold mysprintf. apply substring_all.
  cbn [append String.length]. rewrite length_append.
  cbn [String.length]. lia.
Qed.

(** The levels of syslog, and the level "none", are that short. *)
Lemma fmt_d_level level :
  -1 <= level <= 7 -> (String.length (fmt_d level) <= 5)%nat.
Proof.
  intros H.
  assert (C : level = -1 \/ level = 0 \/ level = 1 \/ level = 2 \/
              level = 3 \/ level = 4 \/ level = 5 \/ level = 6 \/
              level = 7) by lia.
  repeat destruct C as [C|C]; subst level; vm_compute; lia.
Qed.

(** ** The commands *)

Section CommandFacts.
Context {P : Platform}.

(** C7.  [show] on a registry that reports no context is a run error,
    reported as a failure of the enumeration.  On a registry with
    contexts of which none matches the pattern, [show] is a run error
    too, but says so in other words: "No contexts matched" for a
    wildcard pattern, "Context ... not found" for an exact name. *)
Theorem DoCmdShow_no_contexts_vs_no_match :
  unknown_is_error ->
  (forall w n rest,
     lib_GetNumContexts w = (kPmLogErr_None, n) -> n <= 0 ->
     (List.length rest <= 1)%nat ->
     DoCmdShow ("show" :: rest) w =
       (RESULT_RUN_ERR, w,
        [EvGetNumContexts; EvGetErrDbgString kPmLogErr_Unknown;
         EvPrintf "Error getting contexts info: 0x%08X (%s)\n"
           [AInt kPmLogErr_Unknown;
            AStr (lib_GetErrDbgString kPmLogErr_Unknown)]])) /\
  (forall w n pat,
     none_match w (Some (PrvResolveContextNameAlias pat)) n ->
     exists t,
       Forall enum_query t /\
       DoCmdShow ["show"; pat] w =
         (RESULT_RUN_ERR, w,
          t ++ [EvPrintf
                  (if PrvIsWildcardContextName (PrvResolveContextNameAlias pat)
                   then "No contexts matched '%s'.\n"
                   else "Context '%s' not found.\n")
                  [AStr (PrvResolveContextNameAlias pat)]])%list).
Proof.
  intros U. split.
  - intros w n rest Hn Hle Hlen. unfold DoCmdShow.
    assert (E3 : (Z.of_nat (List.length ("show" :: rest)) >=? 3) = false).
    { cbn [List.length]. destruct (Z.geb_spec (Z.of_nat (S (List.length rest))) 3);
        [lia | reflexivity]. }
    rewrite E3. unfold bind at 1.
    rewrite (PrvGetContextList_empty _ w n Hn Hle).
    assert (F : failed kPmLogErr_Unknown = true) by now apply failed_true.
    rewrite F. run. reflexivity.
  - intros w n pat H.
    destruct (PrvGetContextList_none _ w n H) as (t & E & Ht).
    exists (EvGetNumContexts :: t). split; [now constructor|].
    unfold DoCmdShow. cbn [List.length arg_at nth].
    change (Z.of_nat 2 >=? 3) with false. change (Z.of_nat 2 >=? 2) with true.
    cbn iota. unfold bind at 1. rewrite E. rewrite failed_None.
    cbn [DoCmdShow_loop numContexts List.length Z.of_nat Z.eqb].
    destruct (PrvIsWildcardContextName (PrvResolveContextNameAlias pat));
      run; reflexivity.
Qed.

(** The arguments of [set pattern level] with a wildcard pattern and a
    level the library knows. *)
Lemma DoCmdSet_args_wildcard pat lvl level w :
  PrvIsWildcardContextName (PrvResolveContextNameAlias pat) = true ->
  lib_StringToLevel lvl = Some level ->
  DoCmdSet_args [pat; lvl] None None None w =
    (inr (Some (PrvResolveContextNameAlias pat), None, Some level), w,
     [EvStringToLevel lvl]).
Proof.
  intros Hw Hl. cbn [DoCmdSet_args]. rewrite Hw. cbn [negb]. run.
  now rewrite Hl.
Qed.

(** C6.  [set] with a wildcard pattern that none of the registered
    contexts matches is a run error; no level-set call is made and the
    registry is left as it was. *)
Theorem DoCmdSet_wildcard_no_match (pat lvl : string) (level n : Z) (w : World) :
  PrvIsWildcardContextName (PrvResolveContextNameAlias pat) = true ->
  lib_StringToLevel lvl = Some level ->
  none_match w (Some (PrvResolveContextNameAlias pat)) n ->
  exists t,
    DoCmdSet ["set"; pat; lvl] w = (RESULT_RUN_ERR, w, t) /\
    set_calls t = [] /\ Forall read_only t /\
    In (EvPrintf "No contexts matched '%s'.\n"
          [AStr (PrvResolveContextNameAlias pat)]) t.
Proof.
  intros Hw Hl H.
  destruct (PrvGetContextList_none _ w n H) as (t & E & Ht).
  unfold DoCmdSet. cbn [tl]. unfold bind at 1.
  rewrite (DoCmdSet_args_wildcard pat lvl level w Hw Hl).
  unfold bind at 1. rewrite E, failed_None.
  cbn [numContexts List.length Z.of_nat Z.eqb]. run.
  eexists. split; [reflexivity|].
  assert (R : Forall read_only
                ([EvStringToLevel lvl] ++
                 (EvGetNumContexts :: t) ++
                 [EvPrintf "No contexts matched '%s'.\n"
                    [AStr (PrvResolveContextNameAlias pat)]] ++ [])%list).
  { repeat (apply Forall_app; split); repeat constructor.
    now apply enum_query_read_only. }
  split; [now apply read_only_set_calls|]. split; [exact R|].
  apply in_or_app. right. apply in_or_app. right. now left.
Qed.

(** C4 (as the code has it).  [set] with an exact name that the library
    does not find is a parameter error, reported as soon as the lookup
    fails; nothing else is called. *)
Theorem DoCmdSet_exact_not_found (name : string) (rest : list string)
    (w : World) :
  PrvIsWildcardContextName (PrvResolveContextNameAlias name) = false ->
  fst (lib_FindContext w (PrvResolveContextNameAlias name))
    <> kPmLogErr_None ->
  DoCmdSet ("set" :: name :: rest) w =
    (RESULT_PARAM_ERR, w,
     [EvFindContext (PrvResolveContextNameAlias name);
      EvPrintf "Context '%s' not found.\n"
        [AStr (PrvResolveContextNameAlias name)]]).
Proof.
  intros Hw Hf. unfold DoCmdSet. cbn [tl DoCmdSet_args].
  rewrite Hw. cbn [negb]. run.
  destruct (lib_FindContext w (PrvResolveContextNameAlias name)) as [e c].
  cbn [fst] in Hf. apply failed_true in Hf. now rewrite Hf.
Qed.

(** The loop of [set]: it stops at the first failure. *)
Lemma DoCmdSet_loop_spec level : forall done rest w,
  sets_succeed w level done ->
  first_fails (world_after_sets w level done) level rest ->
  exists t,
    DoCmdSet_loop (done ++ rest) level w =
      (match rest with [] => RESULT_OK | _ => RESULT_RUN_ERR end,
       world_after_sets w level (done ++ firstn 1 rest), t) /\
    set_calls t =
      map (fun c => (context c, level)) (done ++ firstn 1 rest).
Proof.
  induction done as [|c done IH]; intros rest w Hs Hf.
  - cbn [app world_after_sets] in *. destruct rest as [|c rest].
    + exists []. split; reflexivity.
    + cbn [DoCmdSet_loop firstn world_after_sets first_fails] in *. run.
      destruct (lib_SetContextLevel w (context c) level) as [w1 e].
      cbn [snd fst] in *. apply failed_true in Hf. rewrite Hf.
      eexists. split; reflexivity.
  - cbn [app DoCmdSet_loop world_after_sets sets_succeed map] in *. run.
    destruct Hs as [He Hs].
    destruct (lib_SetContextLevel w (context c) level) as [w1 e].
    cbn [snd fst] in *. subst e. rewrite failed_None.
    destruct (IH rest w1 Hs Hf) as (t & -> & Ht).
    eexists. split; [reflexivity|]. cbn [app set_calls]. now rewrite Ht.
Qed.

(** C5.  [set] with a wildcard pattern that matches at least one
    context makes its level-set calls on the matched contexts in the
    order of the list the enumeration returned.  When the calls on
    [done] succeed and [rest] is empty, every matched context has had
    its call and the command succeeds; when the call on the first
    context of [rest] fails, that call is the last one, the command is a
    run error, and the registry is as the calls made so far left it. *)
Theorem DoCmdSet_wildcard_calls (pat lvl : string) (level : Z) (w : World)
    (contextInfos done rest : list ContextInfo_t) :
  PrvIsWildcardContextName (PrvResolveContextNameAlias pat) = true ->
  lib_StringToLevel lvl = Some level ->
  fst (fst (PrvGetContextList (Some (PrvResolveContextNameAlias pat)) w))
    = (kPmLogErr_None, contextInfos) ->
  contextInfos <> [] ->
  contextInfos = (done ++ rest)%list ->
  sets_succeed w level done ->
  first_fails (world_after_sets w level done) level rest ->
  exists t,
    DoCmdSet ["set"; pat; lvl] w =
      (match rest with [] => RESULT_OK | _ => RESULT_RUN_ERR end,
       world_after_sets w level (done ++ firstn 1 rest), t) /\
    set_calls t =
      map (fun c => (context c, level)) (done ++ firstn 1 rest).
Proof.
  intros Hw Hl E Hne -> Hs Hf.
  destruct (PrvGetContextList_reads (Some (PrvResolveContextNameAlias pat)) w)
    as (r & t0 & E0 & Ht0).
  rewrite E0 in E. cbn [fst] in E. subst r.
  unfold DoCmdSet. cbn [tl]. unfold bind at 1.
  rewrite (DoCmdSet_args_wildcard pat lvl level w Hw Hl).
  unfold bind at 1. rewrite E0, failed_None.
  assert (N : (numContexts (done ++ rest) =? 0) = false).
  { apply Z.eqb_neq. unfold numContexts.
    destruct (done ++ rest)%list; [contradiction | cbn [List.length]; lia]. }
  rewrite N.
  destruct (DoCmdSet_loop_spec level done rest w Hs Hf) as (t & -> & Ht).
  eexists. split; [reflexivity|].
  rewrite !set_calls_app, (enumeration_set_calls t0 Ht0), Ht. reflexivity.
Qed.

(** *** Parameter errors *)

Ltac done_here :=
  eexists _, _; split; [reflexivity | repeat constructor; try assumption].

Lemma DoCmdSet_args_validates args : forall name c levelIntP w,
  exists r t,
    DoCmdSet_args args name c levelIntP w = (r, w, t) /\ Forall validation t.
Proof.
  induction args as [|arg rest IH]; intros name c levelIntP w;
    cbn [DoCmdSet_args]; [run; done_here|].
  destruct name as [name|].
  - destruct levelIntP as [level|]; run; [done_here|].
    destruct (lib_StringToLevel arg) as [level|]; [|done_here].
    destruct (IH (Some name) c (Some level) w) as (r & t & -> & Ht). done_here.
  - destruct (negb (PrvIsWildcardContextName _)); run.
    + destruct (lib_FindContext w _) as [e h].
      destruct (failed e); [done_here|].
      destruct (IH (Some (PrvResolveContextNameAlias arg)) h levelIntP w)
        as (r & t & -> & Ht). done_here.
    + apply IH.
Qed.

Lemma DoCmdSet_loop_result l level : forall w,
  fst (fst (DoCmdSet_loop l level w)) <> RESULT_PARAM_ERR.
Proof.
  induction l as [|c l IH]; intros w; cbn [DoCmdSet_loop]; run;
    [discriminate|].
  destruct (lib_SetContextLevel w (context c) level) as [w1 e].
  destruct (failed e); [discriminate|].
  specialize (IH w1). destruct (DoCmdSet_loop l level w1) as [[r w2] t].
  exact IH.
Qed.

Lemma DoCmdSet_param_error : param_error_clean DoCmdSet.
Proof.
  intros argv w w' t. unfold DoCmdSet. unfold bind at 1.
  destruct (DoCmdSet_args_validates (tl argv) None None None w)
    as (r & t0 & -> & Ht0).
  destruct r as [res | [[[name|] c] [level|]]].
  - run. intros [= -> <- <-]. split; [reflexivity|]. now rewrite app_nil_r.
  - destruct c as [h|].
    + run. destruct (lib_SetContextLevel w (Some h) level) as [w1 e].
      destruct (failed e); discriminate.
    + unfold bind at 1.
      destruct (PrvGetContextList_reads (Some name) w)
        as ([e infos] & t1 & -> & _).
      destruct (failed e); [run; discriminate|].
      destruct (numContexts infos =? 0); [run; discriminate|].
      pose proof (DoCmdSet_loop_result infos level w) as N.
      destruct (DoCmdSet_loop infos level w) as [[r w2] t2].
      cbn [fst] in N. cbn beta iota. intros H. inversion H. contradiction.
  - destruct c; run; intros [= <- <-]; (split; [reflexivity|]);
      (apply Forall_app; split; [assumption | repeat constructor]).
  - run. intros [= <- <-]. split; [reflexivity|].
    apply Forall_app. split; [assumption | repeat constructor].
  - run. intros [= <- <-]. split; [reflexivity|].
    apply Forall_app. split; [assumption | repeat constructor].
Qed.

Lemma DoCmdLog_args_validates args : forall name c levelIntP msg w,
  exists r t,
    DoCmdLog_args args name c levelIntP msg w = (r, w, t) /\
    Forall validation t.
Proof.
  induction args as [|arg rest IH]; intros name c levelIntP msg w;
    cbn [DoCmdLog_args]; [run; done_here|].
  destruct name as [name|].
  - destruct levelIntP as [level|].
    + destruct msg as [msg|]; [run; done_here | apply IH].
    + run. destruct (lib_StringToLevel arg) as [level|]; [|done_here].
      destruct (level =? -1); [done_here|].
      destruct (IH (Some name) c (Some level) msg w) as (r & t & -> & Ht).
      done_here.
  - run. destruct (lib_FindContext w _) as [e h].
    destruct (failed e); [done_here|].
    destruct (IH (Some (PrvResolveContextNameAlias arg)) h levelIntP msg w)
      as (r & t & -> & Ht). done_here.
Qed.

Lemma DoCmdLog_param_error : param_error_clean DoCmdLog.
Proof.
  intros argv w w' t. unfold DoCmdLog.
  destruct (Z.of_nat (List.length argv) =? 2); unfold bind at 1;
    match goal with
    | |- context [DoCmdLog_args ?a ?n ?c ?l ?m w] =>
        destruct (DoCmdLog_args_validates a n c l m w) as (r & t0 & -> & Ht0)
    end;
    (destruct r as [res | [[[[name|] c] [level|]] [msg|]]]; run;
     [ intros [= -> <- <-]; split; [reflexivity | now rewrite app_nil_r]
     | destruct (lib_Print_ w c level "%s" [msg]) as [w1 e];
       destruct (failed e); discriminate
     | intros [= <- <-]; split; [reflexivity|];
       apply Forall_app; split; [assumption | repeat constructor] .. ]).
Qed.

Lemma DoCmdDef_args_validates args : forall name levelIntP level w,
  exists r t,
    DoCmdDef_args args name levelIntP level w = (r, w, t) /\
    Forall validation t.
Proof.
  induction args as [|arg rest IH]; intros name levelIntP level w;
    cbn [DoCmdDef_args]; [run; done_here|].
  destruct name as [name|].
  - destruct levelIntP as [l|]; run; [done_here|].
    destruct (lib_StringToLevel arg) as [l|]; [|done_here].
    destruct (IH (Some name) (Some l) l w) as (r & t & -> & Ht). done_here.
  - run. destruct (lib_FindContext w _) as [e h].
    destruct (negb (failed e)); [done_here|].
    destruct (IH (Some (PrvResolveContextNameAlias arg)) levelIntP level w)
      as (r & t & -> & Ht). done_here.
Qed.

Lemma DoCmdDef_param_error : param_error_clean DoCmdDef.
Proof.
  intros argv w w' t. unfold DoCmdDef. unfold bind at 1.
  destruct (DoCmdDef_args_validates (tl argv) None None kLevelNotSpecified w)
    as (r & t0 & -> & Ht0).
  destruct r as [res | [[name|] level]]; run.
  - intros [= -> <- <-]. split; [reflexivity | now rewrite app_nil_r].
  - destruct (lib_GetContext w name) as [w1 [e c]].
    destruct (failed e); [discriminate|].
    destruct (negb (level =? kLevelNotSpecified)); [|discriminate].
    run. destruct (lib_SetContextLevel w1 c level) as [w2 e2].
    destruct (failed e2); discriminate.
  - intros [= <- <-]. split; [reflexivity|].
    apply Forall_app. split; [assumption | repeat constructor].
Qed.

Lemma DoCmdKLog_args_validates n : forall args level msg w,
  (List.length args <= n)%nat ->
  exists r t,
    DoCmdKLog_args args level msg w = (r, w, t) /\ Forall validation t.
Proof.
  induction n as [|n IH]; intros [|arg rest] level msg w Hn;
    cbn [DoCmdKLog_args List.length] in *; try (run; done_here); [lia|].
  destruct (Ascii.eqb (first_byte arg) "-").
  - destruct (strcmp arg "-p" =? 0); [|run; done_here].
    destruct rest as [|arg' rest]; run; [done_here|].
    destruct (lib_StringToLevel arg') as [l|]; [|done_here].
    destruct (IH rest l msg w) as (r & t & -> & Ht);
      [cbn [List.length] in Hn; lia | done_here].
  - destruct msg as [msg|]; [run; done_here|].
    apply IH. lia.
Qed.

Lemma WriteKMsg_result priority msgStr w :
  fst (fst (WriteKMsg priority msgStr w)) <> RESULT_PARAM_ERR.
Proof.
  unfold WriteKMsg. run.
  destruct (os_fopen w "/dev/kmsg" "w") as [w1 [[f|] err]]; [|discriminate].
  destruct (os_fprintf w1 f _) as [w2 [n err']].
  destruct (n <? 0); discriminate.
Qed.

Lemma DoCmdKLog_param_error : param_error_clean DoCmdKLog.
Proof.
  intros argv w w' t. unfold DoCmdKLog. unfold bind at 1.
  destruct (DoCmdKLog_args_validates _ (tl argv) kPmLogLevel_Notice None w
              (le_n _)) as (r & t0 & -> & Ht0).
  destruct r as [res | [level [msg|]]].
  - run. intros [= -> <- <-]. split; [reflexivity | now rewrite app_nil_r].
  - pose proof (WriteKMsg_result level msg w) as N.
    destruct (WriteKMsg level msg w) as [[r w2] t2]. cbn [fst] in N.
    intros H. inversion H. contradiction.
  - run. intros [= <- <-]. split; [reflexivity|].
    apply Forall_app. split; [assumption | repeat constructor].
Qed.

Lemma DoCmdReConf_param_error : param_error_clean DoCmdReConf.
Proof.
  intros argv w w' t. unfold DoCmdReConf.
  destruct (tl argv) as [|arg rest]; run.
  - destruct (lib_Print_ w _ _ _ _) as [w1 e].
    destruct (failed e); discriminate.
  - intros [= <- <-]. split; [reflexivity | repeat constructor].
Qed.

Lemma DoCmdShow_loop_reads l : forall w,
  exists t, DoCmdShow_loop l w = (tt, w, t).
Proof.
  induction l as [|c l IH]; intros w; cbn [DoCmdShow_loop]; unfold ShowContext;
    run; [now eexists|].
  destruct (IH w) as (t & ->). now eexists.
Qed.

Lemma DoCmdShow_param_error : param_error_clean DoCmdShow.
Proof.
  intros argv w w' t. unfold DoCmdShow.
  destruct (Z.of_nat (List.length argv) >=? 3).
  { run. intros [= <- <-]. split; [reflexivity | repeat constructor]. }
  unfold bind at 1.
  destruct (PrvGetContextList_reads
              (if Z.of_nat (List.length argv) >=? 2
               then Some (PrvResolveContextNameAlias (arg_at argv 1))
               else None) w)
    as ([e infos] & t1 & -> & _).
  destruct (failed e); [run; discriminate|].
  unfold bind at 1. destruct (DoCmdShow_loop_reads infos w) as (t2 & ->).
  destruct (Z.of_nat (List.length argv) >=? 2); [|discriminate].
  destruct (numContexts infos =? 0); [|discriminate].
  destruct (PrvIsWildcardContextName _); run; discriminate.
Qed.

(** C3 (as the code has it).  A command that ends in a parameter error
    has left the world as it was, and before the error is reported it
    has only checked arguments: context names by a lookup in the
    registry, level tokens by the library's conversion.  No context is
    enumerated or created, no level is set and no message is emitted
    before a parameter error. *)
Theorem parameter_errors_precede_effects :
  param_error_clean DoCmdSet /\ param_error_clean DoCmdLog /\
  param_error_clean DoCmdDef /\ param_error_clean DoCmdKLog /\
  param_error_clean DoCmdReConf /\ param_error_clean DoCmdShow.
Proof.
  exact (conj DoCmdSet_param_error
        (conj DoCmdLog_param_error
        (conj DoCmdDef_param_error
        (conj DoCmdKLog_param_error
        (conj DoCmdReConf_param_error DoCmdShow_param_error))))).
Qed.

(** *** klog *)

Lemma kmsg_written_app t1 t2 :
  kmsg_written (t1 ++ t2) = (kmsg_written t1 ++ kmsg_written t2)%list.
Proof.
  induction t1 as [|e t1 IH]; [reflexivity|].
  destruct e; cbn [app kmsg_written]; now rewrite ?IH.
Qed.

Lemma validation_kmsg_written t : Forall validation t -> kmsg_written t = [].
Proof.
  induction 1 as [|e t He _ IH]; [reflexivity|].
  destruct e; cbn [kmsg_written]; try exact IH; destruct He.
Qed.

(** What a successful [WriteKMsg] has written. *)
Lemma WriteKMsg_ok priority msgStr w w' t :
  WriteKMsg priority msgStr w = (RESULT_OK, w', t) ->
  kmsg_written t =
    [(if priority >=? 0 then mysprintf 8 ("<" ++ fmt_d priority ++ ">")
      else "") ++ msgStr ++ LF].
Proof.
  unfold WriteKMsg. run.
  destruct (os_fopen w "/dev/kmsg" "w") as [w1 [[f|] err]]; [|discriminate].
  destruct (os_fprintf w1 f _) as [w2 [n err']].
  destruct (n <? 0); [discriminate|].
  intros [= _ <-]. reflexivity.
Qed.

Lemma cstring_dash_p : cstring "-p".
Proof. unfold cstring. simpl. intuition discriminate. Qed.

(** What the scan of the arguments of [klog] returns, for arguments in
    any order: the level of the last "-p" and the one argument that is
    not an option. *)
Lemma DoCmdKLog_args_spec n : forall args level msg0 w level' m w' t,
  (List.length args <= n)%nat -> Forall cstring args ->
  DoCmdKLog_args args level msg0 w = (inr (level', m), w', t) ->
  level' = klog_level args level /\
  match msg0 with
  | Some _ => klog_positional args = [] /\ m = msg0
  | None =>
      klog_positional args = match m with Some msg => [msg] | None => [] end
  end.
Proof.
  induction n as [|n IH]; intros [|arg rest] level msg0 w level' m w' t Hn Hc;
    cbn [DoCmdKLog_args List.length klog_level klog_positional] in *; run;
    try lia; try (intros [= <- <- _ _]; now destruct msg0).
  apply Forall_cons_iff in Hc as [Ha Hc].
  destruct (Ascii.eqb_spec (first_byte arg) "-") as [D|D].
  - destruct (Z.eqb_spec (strcmp arg "-p") 0) as [E|_]; [|discriminate].
    apply (strcmp_eq arg "-p" Ha cstring_dash_p) in E. subst arg.
    change ("-p" =? "-p")%string with true. cbn iota.
    destruct rest as [|value rest]; [discriminate|].
    apply Forall_cons_iff in Hc as [_ Hc].
    destruct (lib_StringToLevel value) as [l|]; [|discriminate].
    destruct (DoCmdKLog_args rest l msg0 w) as [[r1 w1] t1] eqn:E.
    intros H. inversion H. subst.
    refine (IH rest l msg0 w _ _ _ _ _ Hc E).
    cbn [List.length] in Hn. lia.
  - assert (N : (arg =? "-p")%string = false).
    { apply String.eqb_neq. intros ->. now apply D. }
    rewrite N. destruct msg0 as [m0|]; [discriminate|].
    intros E.
    destruct (IH rest level (Some arg) w level' m w' t ltac:(lia) Hc E)
      as (-> & -> & ->).
    split; reflexivity.
Qed.

(** C8 (as the code has it).  A successful [klog] has written one line
    to the kernel message device: the message, which is the one
    argument that is not an option, a line feed after it, and before it
    the level in decimal between angle brackets when the level is not
    negative and its decimal text, of five characters at most, fits the
    buffer of the prefix.  The level is the one of the last "-p",
    wherever the options stand among the arguments, and [notice] when
    there is no "-p": without "-p" the prefix of [notice] is written,
    and only a negative level leaves the prefix out. *)
Theorem DoCmdKLog_line (argv : list string) (w w' : World) (t : list Event) :
  Forall cstring (tl argv) ->
  DoCmdKLog argv w = (RESULT_OK, w', t) ->
  exists msg,
    klog_positional (tl argv) = [msg] /\
    ((String.length (fmt_d (klog_level (tl argv) kPmLogLevel_Notice)) <= 5)%nat ->
     kmsg_written t =
       [klog_line (klog_level (tl argv) kPmLogLevel_Notice) msg]).
Proof.
  intros Hc. unfold DoCmdKLog. unfold bind at 1.
  destruct (DoCmdKLog_args_validates _ (tl argv) kPmLogLevel_Notice None w
              (le_n _)) as (r & t0 & E & Ht0).
  rewrite E. destruct r as [res | [level [msg|]]]; [| |run; discriminate].
  - run. intros [= -> _ _]. exfalso. revert E. generalize (tl argv) as args.
    clear. intros args E.
    assert (G : forall n args level msg w r t,
               (List.length args <= n)%nat ->
               DoCmdKLog_args args level msg w = (inl r, w, t) ->
               r = RESULT_PARAM_ERR).
    { clear. induction n as [|n IH]; intros [|arg rest] level msg w r t Hn;
        cbn [DoCmdKLog_args List.length] in *; run;
        try discriminate; try lia.
      destruct (Ascii.eqb (first_byte arg) "-").
      - destruct (strcmp arg "-p" =? 0); [|now intros [= <-]].
        destruct rest as [|arg' rest]; [now intros [= <-]|].
        destruct (lib_StringToLevel arg') as [l|]; [|now intros [= <-]].
        destruct (DoCmdKLog_args rest l msg w) as [[r1 w1] t1] eqn:E1.
        intros H. inversion H. subst. apply (IH rest l msg w r t1).
        + cbn [List.length] in Hn. lia.
        + pose proof (DoCmdKLog_args_validates _ rest l msg w (le_n _))
            as (r2 & t2 & E2 & _).
          rewrite E1 in E2. inversion E2. now subst.
      - destruct msg as [msg|]; [now intros [= <-]|].
        apply IH. lia. }
    discriminate (G _ _ _ _ _ _ _ (le_n _) E).
  - intros H.
    destruct (DoCmdKLog_args_spec _ _ _ _ _ _ _ _ _ (le_n _) Hc E)
      as (L & Pos).
    exists msg. split; [exact Pos|]. rewrite <- L. intros Hl.
    destruct (WriteKMsg level msg w) as [[r w2] t2] eqn:W.
    inversion H. subst r w2 t.
    rewrite kmsg_written_app, (validation_kmsg_written t0 Ht0).
    rewrite (WriteKMsg_ok _ _ _ _ _ W). cbn [app]. unfold klog_line.
    rewrite (mysprintf_level level Hl). reflexivity.
Qed.

(** *** The exit status *)

Section MainFacts.
Variable DoCmdView : list string -> M Result.

(** C2 (as the code has it).  The exit status is success exactly when
    the outcome is OK; help-shown, like a parameter error and a run
    error, exits with failure. *)
Theorem main_exit_status (argv : list string) (w : World) :
  (fst (fst (main DoCmdView argv w)) = EXIT_SUCCESS <->
   fst (fst (main_result DoCmdView argv w)) = RESULT_OK) /\
  (fst (fst (main_result DoCmdView argv w)) <> RESULT_OK ->
   fst (fst (main DoCmdView argv w)) = EXIT_FAILURE).
Proof.
  assert (E : fst (fst (main DoCmdView argv w)) =
              if Result_eqb (fst (fst (main_result DoCmdView argv w))) RESULT_OK
              then EXIT_SUCCESS else EXIT_FAILURE).
  { unfold main, SuggestHelp. run.
    destruct (main_result DoCmdView argv w) as [[r w1] t1].
    now destruct r. }
  rewrite E. clear E.
  destruct (fst (fst (main_result DoCmdView argv w))); cbn [Result_eqb];
    (split; [split; (reflexivity || discriminate) | ]);
    intros N; (reflexivity || (exfalso; apply N; reflexivity)).
Qed.

End MainFacts.

End CommandFacts.

(** ** The test double satisfies the contracts *)



Lemma Fake_insert_permutes {A} (cmp : A -> A -> Z) (x : A) (l : list A) :
  Permutation (x :: l) (Fake.insert cmp x l).
Proof.
  induction l as [|a l IH]; cbn [Fake.insert]; [reflexivity|].
  destruct (cmp x a <=? 0); [reflexivity|].
  rewrite perm_swap. now constructor.
Qed.

Lemma Fake_qsort_permutes : @qsort_permutes Fake.platform.
Proof.
  intros A cmp l _. cbn [libc_qsort Fake.platform].
  induction l as [|x l IH]; cbn [Fake.qsort]; [constructor|].
  rewrite <- Fake_insert_permutes. now constructor.
Qed.

Lemma Fake_unknown_is_error : @unknown_is_error Fake.platform.
Proof. discriminate. Qed.

(** In [Fake.w3] no name starts with "zz" and none is "zz". *)
Lemma Fake_none_match pattern :
  pattern = "zz*" \/ pattern = "zz" ->
  @none_match Fake.platform Fake.w3
    (Some (PrvResolveContextNameAlias pattern)) 3.
Proof.
  intros Hp. split; [reflexivity|]. split; [lia|]. intros i Hi.
  assert (C : i = 0 \/ i = 1 \/ i = 2) by lia.
  destruct Hp as [-> | ->]; destruct C as [-> | [-> | ->]];
    eexists _, _; repeat split; reflexivity.
Qed.

(** ** Instances of the theorems *)

(** [show b*] on [Fake.w3]: matching looks at the case of letters, so
    "Bravo" is not among the matched contexts. *)
Lemma PrvGetContextList_matched_example :
  exists l t,
    PrvGetContextList (Some "b*") Fake.w3 = ((0, l), Fake.w3, t) /\
    Permutation [Fake.info 0 "beta"] l /\ Forall enum_query t.
Proof.
  apply (PrvGetContextList_matched (P:=Fake.platform) (Some "b*") Fake.w3 3
           [Fake.info 0 "beta"; Fake.info 1 "alpha"; Fake.info 2 "Bravo"]).
  - exact Fake_qsort_permutes.
  - reflexivity.
  - split; vm_compute; discriminate.
  - reflexivity.
Defined.


Lemma DoCmdShow_no_contexts_vs_no_match_witness :
  DoCmdShow ["show"] Fake.w0 =
    (RESULT_RUN_ERR, Fake.w0,
     [EvGetNumContexts; EvGetErrDbgString 999;
      EvPrintf "Error getting contexts info: 0x%08X (%s)\n"
        [AInt 999; AStr "error"]]) /\
  exists t,
    Forall enum_query t /\
    DoCmdShow ["show"; "zz*"] Fake.w3 =
      (RESULT_RUN_ERR, Fake.w3,
       t ++ [EvPrintf "No contexts matched '%s'.\n" [AStr "zz*"]])%list.
Proof.
  destruct (DoCmdShow_no_contexts_vs_no_match (P:=Fake.platform)
              Fake_unknown_is_error)
    as [Empty NoMatch].
  split.
  - apply (Empty Fake.w0 0 []); [reflexivity | lia | cbn; lia].
  - apply (NoMatch Fake.w3 3 "zz*"). apply Fake_none_match. now left.
Defined.

Lemma DoCmdSet_wildcard_no_match_witness :
  exists t,
    DoCmdSet ["set"; "zz*"; "err"] Fake.w3 = (RESULT_RUN_ERR, Fake.w3, t) /\
    set_calls t = [] /\ Forall read_only t /\
    In (EvPrintf "No contexts matched '%s'.\n" [AStr "zz*"]) t.
Proof.
  apply (DoCmdSet_wildcard_no_match (P:=Fake.platform) "zz*" "err" 3 3 Fake.w3).
  - reflexivity.
  - reflexivity.
  - apply Fake_none_match. now left.
Defined.

Lemma DoCmdSet_exact_not_found_witness :
  DoCmdSet ["set"; "nosuch"; "err"] Fake.w3 =
    (RESULT_PARAM_ERR, Fake.w3,
     [EvFindContext "nosuch";
      EvPrintf "Context '%s' not found.\n" [AStr "nosuch"]]).
Proof.
  apply (DoCmdSet_exact_not_found (P:=Fake.platform) "nosuch" ["err"] Fake.w3).
  - reflexivity.
  - discriminate.
Defined.

(** [set * err] on [Fake.w3]: "alpha" is set, the frozen "beta" fails,
    "Bravo" is not tried. *)
Lemma DoCmdSet_wildcard_calls_witness :
  exists t,
    DoCmdSet ["set"; "*"; "err"] Fake.w3 =
      (RESULT_RUN_ERR,
       Fake.mkState
         [Fake.mkCtx "beta" 3 true; Fake.mkCtx "alpha" 3 false;
          Fake.mkCtx "Bravo" 7 false] None [], t) /\
    @set_calls Fake.platform t = [(Some 1%nat, 3); (Some 0%nat, 3)].
Proof.
  apply (DoCmdSet_wildcard_calls (P:=Fake.platform) "*" "err" 3 Fake.w3
           [Fake.info 1 "alpha"; Fake.info 0 "beta"; Fake.info 2 "Bravo"]
           [Fake.info 1 "alpha"]
           [Fake.info 0 "beta"; Fake.info 2 "Bravo"]).
  - reflexivity.
  - reflexivity.
  - reflexivity.
  - discriminate.
  - reflexivity.
  - cbn. split; [reflexivity | exact I].
  - cbn. discriminate.
Defined.

Lemma parameter_errors_precede_effects_witness :
  Fake.w3 = Fake.w3 /\
  Forall validation
    [EvFindContext "bogus";
     EvPrintf "Invalid context '%s'.\n" [AStr "bogus"]].
Proof.
  destruct (@parameter_errors_precede_effects Fake.platform)
    as (_ & Log & _).
  apply (Log ["log"; "bogus"; "err"; "hi"] Fake.w3). reflexivity.
Defined.

(** [klog boom -p err]: the level given after the message is the one
    of the line. *)
Lemma DoCmdKLog_line_witness :
  exists msg,
    klog_positional ["boom"; "-p"; "err"] = [msg] /\
    kmsg_written
      [EvStringToLevel "err"; EvFopen "/dev/kmsg" "w";
       EvFprintf ("<3>boom" ++ LF); EvFclose]
    = [klog_line 3 msg].
Proof.
  destruct (DoCmdKLog_line (P:=Fake.platform) ["klog"; "boom"; "-p"; "err"]
              Fake.w3
              (Fake.mkState (Fake.registry Fake.w3) None ["<3>boom" ++ LF])
              [EvStringToLevel "err"; EvFopen "/dev/kmsg" "w";
               EvFprintf ("<3>boom" ++ LF); EvFclose])
    as (msg & Hp & Hl).
  - repeat constructor; unfold cstring; simpl; intuition discriminate.
  - reflexivity.
  - exists msg. split; [exact Hp|]. apply Hl. vm_compute. lia.
Defined.

Lemma main_exit_status_witness :
  fst (fst (main Fake.DoCmdView ["PmLogCtl"; "show"; "zz"] Fake.w3))
    = EXIT_FAILURE.
Proof.
  apply (main_exit_status (P:=Fake.platform) Fake.DoCmdView ["PmLogCtl"; "show"; "zz"] Fake.w3).
  discriminate.
Defined.

(** ** Where the code departs from the specification *)

(** C2.  [help] ends in the outcome help-shown and exits with failure. *)
Lemma main_help_exits_with_failure :
  fst (fst (main_result Fake.DoCmdView ["PmLogCtl"; "help"] Fake.w3))
    = RESULT_HELP /\
  fst (fst (main Fake.DoCmdView ["PmLogCtl"; "help"] Fake.w3))
    <> EXIT_SUCCESS.
Proof. split; [reflexivity | discriminate]. Qed.

(** C3.  [log bogus err hi] ends in a parameter error about "bogus";
    the error is found by looking "bogus" up in the library, so a call
    for the offending argument comes before the report. *)
Lemma DoCmdLog_lookup_precedes_param_error :
  DoCmdLog ["log"; "bogus"; "err"; "hi"] Fake.w3 =
    (RESULT_PARAM_ERR, Fake.w3,
     [EvFindContext "bogus";
      EvPrintf "Invalid context '%s'.\n" [AStr "bogus"]]).
Proof. reflexivity. Qed.

(** C4.  [set nosuch err], with no context "nosuch" registered, is a
    parameter error, not a run error. *)
Lemma DoCmdSet_exact_not_found_is_not_run_error :
  PrvIsWildcardContextName "nosuch" = false /\
  fst (Fake.FindContext Fake.w3 "nosuch") <> 0 /\
  fst (fst (DoCmdSet ["set"; "nosuch"; "err"] Fake.w3)) <> RESULT_RUN_ERR.
Proof. repeat split; discriminate. Qed.

(** C8.  [klog boom], with no level given, succeeds and writes the
    prefix of the default level before the message. *)
Lemma DoCmdKLog_default_level_prefix :
  fst (fst (DoCmdKLog ["klog"; "boom"] Fake.w3)) = RESULT_OK /\
  kmsg_written (snd (DoCmdKLog ["klog"; "boom"] Fake.w3))
    = ["<5>boom" ++ LF] /\
  kmsg_written (snd (DoCmdKLog ["klog"; "boom"] Fake.w3))
    <> ["boom" ++ LF].
Proof. repeat split; discriminate. Qed.

(** * Further properties of the code *)

(** ** Wildcards and the order of names *)

(** X1.  A name is a wildcard pattern exactly when it contains a '*'. *)
Theorem PrvIsWildcardContextName_spec (s : string) :
  cstring s -> (PrvIsWildcardContextName s = true <-> contains "*" s).
Proof.
  intros Hs. unfold PrvIsWildcardContextName.
  pose proof (strchr_None s "*" star_not_NUL Hs) as H.
  destruct (strchr s "*") as [n|].
  - split; [intros _ | reflexivity].
    destruct (in_dec ascii_dec "*"%char (list_ascii_of_string s)) as [I|N];
      [exact I|].
    apply H in N. discriminate.
  - split; [discriminate|]. intros I. exfalso. now apply (proj1 H).
Qed.

Lemma PrvIsWildcardContextName_spec_witness :
  PrvIsWildcardContextName "be*zz" = true <-> contains "*" "be*zz".
Proof.
  apply (PrvIsWildcardContextName_spec "be*zz").
  unfold cstring. simpl. intuition discriminate.
Defined.

Lemma strcasecmp_zero s1 : forall s2,
  strcasecmp s1 s2 = 0 <-> fold_case s1 = fold_case s2.
Proof.
  induction s1 as [|c1 r1 IH]; intros [|c2 r2];
    cbn [strcasecmp fold_case];
    repeat match goal with
           | c : ascii |- _ =>
               lazymatch goal with
               | _ : 0 <= tolower (code c) |- _ => fail
               | _ => pose proof (tolower_nonneg c)
               end
           end;
    key_facts; try (exfalso; lia);
    try (split; intros Hx;
         solve [ reflexivity | discriminate | exfalso; lia | lia
               | injection Hx; intros; exfalso; lia ]).
  rewrite IH. split; [intros ->; f_equal; lia | now intros [= _ ->]].
Qed.

Section NameOrder.
Context {P : Platform}.

(** X2.  The comparison function of the sort is what qsort needs:
    swapping the arguments negates the result, "not after" is
    transitive, and two entries compare equal exactly when their names
    are equal up to the case of letters. *)
Theorem SortCmpContextInfoByName_order :
  (forall a b,
     SortCmpContextInfoByName b a = - SortCmpContextInfoByName a b) /\
  (forall a b c,
     SortCmpContextInfoByName a b <= 0 -> SortCmpContextInfoByName b c <= 0 ->
     SortCmpContextInfoByName a c <= 0) /\
  (forall a b,
     SortCmpContextInfoByName a b = 0 <->
     fold_case (contextName a) = fold_case (contextName b)).
Proof.
  unfold SortCmpContextInfoByName. split; [|split].
  - intros a b. apply strcasecmp_antisym.
  - intros a b c. apply strcasecmp_trans.
  - intros a b. apply strcasecmp_zero.
Qed.

End NameOrder.

(** ** Enumeration *)

Section MoreEnumeration.
Context {P : Platform}.

Lemma failed_false e : failed e = false -> e = kPmLogErr_None.
Proof.
  unfold failed. destruct (Z.eqb_spec e kPmLogErr_None); [easy | discriminate].
Qed.

(** With room in the array for every context still to come, the trace of
    the loop is made of enumeration queries. *)
Lemma PrvGetContextList_loop_queries m count : forall i infos w,
  numContexts infos + Z.of_nat count <= contextInfos_slots ->
  exists r t,
    PrvGetContextList_loop m count i infos w = (r, w, t) /\
    Forall enum_query t.
Proof.
  induction count as [|count IH]; intros i infos w Hcap;
    cbn [PrvGetContextList_loop]; run.
  - eexists _, _. split; [reflexivity | constructor].
  - destruct (Z.geb_spec (numContexts infos) contextInfos_slots); [lia|].
    destruct (lib_GetIndContext w i) as [e c].
    destruct (failed e).
    { eexists _, _. split; [reflexivity | repeat constructor]. }
    destruct (lib_GetContextName w c _) as [e' name].
    destruct (failed e').
    { eexists _, _. split; [reflexivity | repeat constructor]. }
    destruct (negb (PrvMatchContextName name m)).
    { destruct (IH (i + 1) infos w) as (r & t & -> & Ht); [lia|].
      eexists _, _. split; [reflexivity | repeat constructor; exact Ht]. }
    destruct (IH (i + 1) (infos ++ [mkContextInfo c name])%list w)
      as (r & t & -> & Ht).
    { unfold numContexts in *. rewrite length_app. cbn [List.length]. lia. }
    eexists _, _. split; [reflexivity | repeat constructor; exact Ht].
Qed.

Lemma PrvGetContextList_queries m w :
  (forall n, lib_GetNumContexts w = (kPmLogErr_None, n) ->
     n <= contextInfos_slots) ->
  exists r t, PrvGetContextList m w = (r, w, t) /\ Forall enum_query t.
Proof.
  intros Hcap. unfold PrvGetContextList. run.
  destruct (lib_GetNumContexts w) as [e n].
  destruct (failed e) eqn:F.
  { eexists _, _. split; [reflexivity | repeat constructor]. }
  apply failed_false in F. subst e. specialize (Hcap n eq_refl).
  destruct (Z.leb_spec n 0).
  { eexists _, _. split; [reflexivity | repeat constructor]. }
  destruct (PrvGetContextList_loop_queries m (Z.to_nat n) 0 [] w)
    as ([early infos] & t & -> & Ht).
  { unfold numContexts. cbn [List.length]. lia. }
  destruct early; eexists _, _;
    (split; [reflexivity | constructor; [exact I|]]);
    rewrite app_nil_r; exact Ht.
Qed.

Lemma enumeration_printed t : Forall enumeration_event t -> printed t = [].
Proof.
  induction 1 as [|e t He _ IH]; [reflexivity|].
  destruct e; cbn [printed]; try exact IH; destruct He.
Qed.

Lemma printed_app t1 t2 :
  printed (t1 ++ t2) = (printed t1 ++ printed t2)%list.
Proof.
  induction t1 as [|e t1 IH]; [reflexivity|].
  destruct e; cbn [app printed]; now rewrite ?IH.
Qed.

(** The loop stops at the first context it cannot read. *)
Lemma PrvGetContextList_loop_error m w : forall k count i infos pre e,
  registry_entries w k i = Some pre -> (k < count)%nat ->
  numContexts infos + Z.of_nat k < contextInfos_slots ->
  read_error w (i + Z.of_nat k) = Some e ->
  exists l t,
    PrvGetContextList_loop m count i infos w = ((Some e, l), w, t) /\
    queries_up_to (i + Z.of_nat k) t /\ Forall enum_query t.
Proof.
  induction k as [|k IH]; intros [|count] i infos pre e R Hk Hcap He;
    try lia; cbn [PrvGetContextList_loop registry_entries] in *;
    unfold read_error in He; run;
    (destruct (Z.geb_spec (numContexts infos) contextInfos_slots); [lia|]).
  - replace (i + Z.of_nat 0) with i in * by lia.
    destruct (lib_GetIndContext w i) as [e0 c].
    destruct (failed e0).
    { injection He as <-. eexists _, _. split; [reflexivity|].
      split; repeat constructor. lia. }
    destruct (lib_GetContextName w c _) as [e1 name].
    destruct (failed e1); [|discriminate].
    injection He as <-. eexists _, _. split; [reflexivity|].
    split; repeat constructor. lia.
  - destruct (lib_GetIndContext w i) as [e0 c].
    destruct (failed e0); [discriminate|].
    destruct (lib_GetContextName w c _) as [e1 name].
    destruct (failed e1); [discriminate|].
    destruct (registry_entries w k (i + 1)) as [rest|] eqn:R';
      [|discriminate].
    injection R as <-.
    replace (i + Z.of_nat (S k)) with (i + 1 + Z.of_nat k) in * by lia.
    destruct (PrvMatchContextName name m); cbn [negb].
    + destruct (IH count (i + 1) (infos ++ [mkContextInfo c name])%list
                  rest e R' ltac:(lia)) as (l & t & -> & Ht & Hq); [|exact He|].
      { unfold numContexts in *. rewrite length_app. cbn [List.length]. lia. }
      eexists _, _. split; [reflexivity|]. split.
      * constructor; [lia|]. constructor; [exact I|]. exact Ht.
      * repeat constructor. exact Hq.
    + destruct (IH count (i + 1) infos rest e R' ltac:(lia) ltac:(lia) He)
        as (l & t & -> & Ht & Hq).
      eexists _, _. split; [reflexivity|]. split.
      * constructor; [lia|]. constructor; [exact I|]. exact Ht.
      * repeat constructor. exact Hq.
Qed.

(** X4.  Enumeration gives up at the first error of the library: an
    error of the count is returned before any context is asked for, and,
    on a registry with no more contexts than the array has slots, the
    error of the first context that cannot be read is returned without
    asking for a later one and without a store past the array. *)
Theorem PrvGetContextList_first_error (m : option string) (w : World) :
  (forall e n,
     lib_GetNumContexts w = (e, n) -> e <> kPmLogErr_None ->
     PrvGetContextList m w = ((e, []), w, [EvGetNumContexts])) /\
  (forall n k pre e,
     lib_GetNumContexts w = (kPmLogErr_None, n) -> 0 <= k < n ->
     n <= contextInfos_slots ->
     registry_entries w (Z.to_nat k) 0 = Some pre ->
     read_error w k = Some e ->
     exists l t,
       PrvGetContextList m w = ((e, l), w, t) /\
       queries_up_to k t /\ Forall enum_query t).
Proof.
  split.
  - intros e n Hn He. unfold PrvGetContextList. run.
    rewrite Hn. apply failed_true in He. now rewrite He.
  - intros n k pre e Hn Hk Hcap R He. unfold PrvGetContextList. run.
    rewrite Hn, failed_None.
    destruct (Z.leb_spec n 0) as [?|_]; [lia|].
    destruct (PrvGetContextList_loop_error m w (Z.to_nat k) (Z.to_nat n) 0 []
                pre e R ltac:(lia)) as (l & t & -> & Ht & Hq).
    { unfold numContexts. cbn [List.length]. lia. }
    { rewrite Z2Nat.id by lia. exact He. }
    rewrite Z2Nat.id in Ht by lia.
    eexists _, _. split; [reflexivity|]. rewrite app_nil_r. split.
    + constructor; [exact I|]. exact Ht.
    + constructor; [exact I|]. exact Hq.
Qed.

End MoreEnumeration.

(** ** show *)

Section ShowFacts.
Context {P : Platform}.

Lemma DoCmdShow_loop_lines l : forall w,
  exists t,
    DoCmdShow_loop l w = (tt, w, t) /\
    printed t = map (show_line w) l /\ Forall read_only t.
Proof.
  induction l as [|c l IH]; intros w; cbn [DoCmdShow_loop];
    unfold ShowContext; run.
  - exists []. repeat split. constructor.
  - destruct (IH w) as (t & -> & Ht & Hr). eexists. split; [reflexivity|].
    cbn [app printed map]. rewrite Ht. split; [reflexivity|].
    repeat constructor. exact Hr.
Qed.

(** X5.  On a registry that reports no more contexts than the array
    has slots, [show] changes nothing, whatever its arguments: nothing
    is stored outside the array, and no call is made that creates a
    context, sets a level, emits a message or writes to the device. *)
Theorem DoCmdShow_read_only (argv : list string) (w : World) :
  (forall n, lib_GetNumContexts w = (kPmLogErr_None, n) ->
     n <= contextInfos_slots) ->
  exists r t,
    DoCmdShow argv w = (r, w, t) /\ Forall read_only t /\ effects t = [].
Proof.
  intros Hcap.
  assert (E : forall t, Forall read_only t -> effects t = []).
  { induction 1 as [|e t He _ IH]; [reflexivity|].
    destruct e; cbn [effects]; try exact IH; destruct He. }
  assert (G : exists r t, DoCmdShow argv w = (r, w, t) /\ Forall read_only t).
  { unfold DoCmdShow.
    destruct (Z.of_nat (List.length argv) >=? 3).
    { run. eexists _, _. split; [reflexivity | repeat constructor]. }
    unfold bind at 1.
    destruct (PrvGetContextList_queries
                (if Z.of_nat (List.length argv) >=? 2
                 then Some (PrvResolveContextNameAlias (arg_at argv 1))
                 else None) w Hcap)
      as ([e infos] & t1 & -> & Ht1).
    apply enum_query_read_only in Ht1.
    destruct (failed e).
    { run. eexists _, _. split; [reflexivity|].
      apply Forall_app. split; [exact Ht1 | repeat constructor]. }
    unfold bind at 1.
    destruct (DoCmdShow_loop_lines infos w) as (t2 & -> & _ & Ht2).
    destruct (Z.of_nat (List.length argv) >=? 2);
      [destruct (numContexts infos =? 0);
       [destruct (PrvIsWildcardContextName _)|]|];
      run; eexists _, _; (split; [reflexivity|]);
      repeat (apply Forall_app; split); try assumption; repeat constructor. }
  destruct G as (r & t & G & Ht). exists r, t. auto.
Qed.

(** X6.  When the enumeration succeeds, [show] prints one line for each
    context of the list it returned, in the order of that list, with the
    name of the level or "Unknown", and nothing else; it is then a
    success (with a pattern: provided the list is not empty). *)
Theorem DoCmdShow_lines (w : World) (contextInfos : list ContextInfo_t) :
  (forall cmd,
     fst (fst (PrvGetContextList None w)) = (kPmLogErr_None, contextInfos) ->
     exists t,
       DoCmdShow [cmd] w = (RESULT_OK, w, t) /\
       printed t = map (show_line w) contextInfos) /\
  (forall cmd pat,
     fst (fst (PrvGetContextList (Some (PrvResolveContextNameAlias pat)) w))
       = (kPmLogErr_None, contextInfos) ->
     contextInfos <> [] ->
     exists t,
       DoCmdShow [cmd; pat] w = (RESULT_OK, w, t) /\
       printed t = map (show_line w) contextInfos).
Proof.
  split.
  - intros cmd E.
    destruct (PrvGetContextList_reads None w) as (r & t0 & E0 & Ht0).
    rewrite E0 in E. cbn [fst] in E. subst r.
    unfold DoCmdShow. cbn [List.length arg_at nth].
    change (Z.of_nat 1 >=? 3) with false. change (Z.of_nat 1 >=? 2) with false.
    cbn iota. unfold bind at 1. rewrite E0, failed_None.
    unfold bind at 1.
    destruct (DoCmdShow_loop_lines contextInfos w) as (t & -> & Ht & _).
    run. eexists. split; [reflexivity|].
    rewrite !printed_app, (enumeration_printed t0 Ht0), Ht.
    cbn [printed app]. now rewrite app_nil_r.
  - intros cmd pat E Hne.
    destruct (PrvGetContextList_reads
                (Some (PrvResolveContextNameAlias pat)) w)
      as (r & t0 & E0 & Ht0).
    rewrite E0 in E. cbn [fst] in E. subst r.
    unfold DoCmdShow. cbn [List.length arg_at nth].
    change (Z.of_nat 2 >=? 3) with false. change (Z.of_nat 2 >=? 2) with true.
    cbn iota. unfold bind at 1. rewrite E0, failed_None.
    unfold bind at 1.
    destruct (DoCmdShow_loop_lines contextInfos w) as (t & -> & Ht & _).
    assert (N : (numContexts contextInfos =? 0) = false).
    { apply Z.eqb_neq. unfold numContexts.
      destruct contextInfos; [contradiction | cbn [List.length]; lia]. }
    rewrite N. run. eexists. split; [reflexivity|].
    rewrite !printed_app, (enumeration_printed t0 Ht0), Ht.
    cbn [printed app]. now rewrite app_nil_r.
Qed.

(** X7.  [show] ends in a parameter error exactly when it is given more
    than one argument; it then names the second argument and calls
    nothing. *)
Theorem DoCmdShow_param_error_iff (argv : list string) (w : World) :
  (fst (fst (DoCmdShow argv w)) = RESULT_PARAM_ERR <->
   (3 <= List.length argv)%nat) /\
  ((3 <= List.length argv)%nat ->
   DoCmdShow argv w =
     (RESULT_PARAM_ERR, w,
      [EvPrintf "Invalid parameter '%s'\n" [AStr (arg_at argv 2)]])).
Proof.
  assert (A : (3 <= List.length argv)%nat ->
              DoCmdShow argv w =
                (RESULT_PARAM_ERR, w,
                 [EvPrintf "Invalid parameter '%s'\n" [AStr (arg_at argv 2)]])).
  { intros H. unfold DoCmdShow.
    destruct (Z.geb_spec (Z.of_nat (List.length argv)) 3); [|lia].
    reflexivity. }
  split; [|exact A]. split.
  - intros H.
    destruct (Nat.le_gt_cases 3 (List.length argv)) as [L|L]; [exact L|].
    exfalso. revert H. unfold DoCmdShow.
    destruct (Z.geb_spec (Z.of_nat (List.length argv)) 3); [lia|].
    unfold bind at 1.
    destruct (PrvGetContextList_reads
                (if Z.of_nat (List.length argv) >=? 2
                 then Some (PrvResolveContextNameAlias (arg_at argv 1))
                 else None) w)
      as ([e infos] & t1 & -> & _).
    destruct (failed e); [run; discriminate|].
    unfold bind at 1. destruct (DoCmdShow_loop_reads infos w) as (t2 & ->).
    destruct (Z.of_nat (List.length argv) >=? 2); [|discriminate].
    destruct (numContexts infos =? 0); [|discriminate].
    destruct (PrvIsWildcardContextName _); run; discriminate.
  - intros H. now rewrite (A H).
Qed.

End ShowFacts.

(** ** set *)

Section SetFacts.
Context {P : Platform}.

(** Once the level is known, the loop keeps it. *)
Lemma DoCmdSet_args_level_kept args : forall name c level w name' c' lv' w' t,
  DoCmdSet_args args name c (Some level) w = (inr (name', c', lv'), w', t) ->
  lv' = Some level.
Proof.
  induction args as [|arg rest IH]; intros name c level w name' c' lv' w' t;
    cbn [DoCmdSet_args]; run.
  - now intros [= _ _ <- _ _].
  - destruct name as [name|]; run; [discriminate|].
    destruct (negb (PrvIsWildcardContextName _)); run.
    + destruct (lib_FindContext w _) as [e h].
      destruct (failed e); [discriminate|].
      destruct (DoCmdSet_args rest _ h (Some level) w) as [[r w1] t1] eqn:E.
      intros H. inversion H. subst. exact (IH _ _ _ _ _ _ _ _ _ E).
    + apply IH.
Qed.

(** Each argument the loop accepts gives one of the two values, the
    level is the library's for one of the arguments, and the loop makes
    no level-set call. *)
Lemma DoCmdSet_args_shape args : forall name c lv w name' c' lv' w' t,
  DoCmdSet_args args name c lv w = (inr (name', c', lv'), w', t) ->
  (known name + known lv + List.length args = known name' + known lv')%nat
  /\ (lv = None -> forall level, lv' = Some level ->
      exists arg, In arg args /\ lib_StringToLevel arg = Some level)
  /\ set_calls t = [].
Proof.
  induction args as [|arg rest IH]; intros name c lv w name' c' lv' w' t;
    cbn [DoCmdSet_args]; run.
  - intros [= <- <- <- <- <-]. cbn [List.length]. repeat split; [lia|].
    intros -> level [=].
  - destruct name as [name|].
    + destruct lv as [level|]; run; [discriminate|].
      destruct (lib_StringToLevel arg) as [level|] eqn:L; [|discriminate].
      destruct (DoCmdSet_args rest (Some name) c (Some level) w)
        as [[r w1] t1] eqn:E.
      intros H. inversion H. subst.
      destruct (IH _ _ _ _ _ _ _ _ _ E) as (Hn & _ & Ht).
      cbn [List.length known] in *. repeat split; [lia | | exact Ht].
      intros _ level' ->.
      apply DoCmdSet_args_level_kept in E. injection E as ->.
      exists arg. split; [now left | exact L].
    + destruct (negb (PrvIsWildcardContextName _)); run.
      * destruct (lib_FindContext w _) as [e h].
        destruct (failed e); [discriminate|].
        destruct (DoCmdSet_args rest _ h lv w) as [[r w1] t1] eqn:E.
        intros H. inversion H. subst.
        destruct (IH _ _ _ _ _ _ _ _ _ E) as (Hn & Hl & Ht).
        cbn [List.length known] in *. repeat split; [lia | | exact Ht].
        intros Hlv level Hl'. destruct (Hl Hlv level Hl') as (a & Ia & La).
        exists a. split; [now right | exact La].
      * intros E. destruct (IH _ _ _ _ _ _ _ _ _ E) as (Hn & Hl & Ht).
        cbn [List.length known] in *. repeat split; [lia | | exact Ht].
        intros Hlv level Hl'. destruct (Hl Hlv level Hl') as (a & Ia & La).
        exists a. split; [now right | exact La].
Qed.

(** The loop does not end in success: it ends in values or in a
    parameter error. *)
Lemma DoCmdSet_args_not_ok args : forall name c lv w w' t,
  DoCmdSet_args args name c lv w <> (inl RESULT_OK, w', t).
Proof.
  induction args as [|arg rest IH]; intros name c lv w w' t;
    cbn [DoCmdSet_args]; run; [discriminate|].
  destruct name as [name|].
  - destruct lv as [level|]; run; [discriminate|].
    destruct (lib_StringToLevel arg) as [level|]; [|discriminate].
    destruct (DoCmdSet_args rest (Some name) c (Some level) w)
      as [[r w1] t1] eqn:E.
    intros H. inversion H. subst. exact (IH _ _ _ _ _ _ E).
  - destruct (negb (PrvIsWildcardContextName _)); run.
    + destruct (lib_FindContext w _) as [e h].
      destruct (failed e); [discriminate|].
      destruct (DoCmdSet_args rest _ h lv w) as [[r w1] t1] eqn:E.
      intros H. inversion H. subst. exact (IH _ _ _ _ _ _ E).
    + apply IH.
Qed.

(** A successful loop has made its call on every context. *)
Lemma DoCmdSet_loop_ok l level : forall w w' t,
  DoCmdSet_loop l level w = (RESULT_OK, w', t) ->
  set_calls t = map (fun c => (context c, level)) l.
Proof.
  induction l as [|c l IH]; intros w w' t; cbn [DoCmdSet_loop]; run.
  - now intros [= _ <-].
  - destruct (lib_SetContextLevel w (context c) level) as [w1 e].
    destruct (failed e); [discriminate|].
    destruct (DoCmdSet_loop l level w1) as [[r w2] t2] eqn:E.
    intros H. inversion H. subst. cbn [set_calls map].
    now rewrite (IH _ _ _ E).
Qed.

(** X8.  [set name level] with an exact name the library finds makes one
    level-set call, on the context found and with the level of the
    token, without enumerating the registry; the command succeeds
    exactly when that call does. *)
Theorem DoCmdSet_exact (cmd name lvl : string) (level : Z) (h : Handle)
    (w : World) :
  PrvIsWildcardContextName (PrvResolveContextNameAlias name) = false ->
  lib_FindContext w (PrvResolveContextNameAlias name)
    = (kPmLogErr_None, Some h) ->
  lib_StringToLevel lvl = Some level ->
  exists t,
    DoCmdSet [cmd; name; lvl] w =
      (if failed (snd (lib_SetContextLevel w (Some h) level))
       then RESULT_RUN_ERR else RESULT_OK,
       fst (lib_SetContextLevel w (Some h) level), t) /\
    library_calls t =
      ([EvFindContext (PrvResolveContextNameAlias name); EvStringToLevel lvl;
        EvSetContextLevel (Some h) level] ++
       (if failed (snd (lib_SetContextLevel w (Some h) level))
        then [EvGetErrDbgString (snd (lib_SetContextLevel w (Some h) level))]
        else []))%list.
Proof.
  intros Hw Hf Hl. unfold DoCmdSet. cbn [tl DoCmdSet_args].
  rewrite Hw. cbn [negb]. run. rewrite Hf, failed_None, Hl. cbn iota beta.
  destruct (lib_SetContextLevel w (Some h) level) as [w1 e]. cbn [fst snd].
  destruct (failed e); eexists; split; reflexivity.
Qed.

(** X9.  A successful [set] was given exactly a pattern and a level
    token, has made at least one level-set call, and each of its
    level-set calls carries the level the library gives for the token. *)
Theorem DoCmdSet_ok_shape (argv : list string) (w w' : World)
    (t : list Event) :
  DoCmdSet argv w = (RESULT_OK, w', t) ->
  List.length argv = 3%nat /\
  set_calls t <> [] /\
  exists level,
    lib_StringToLevel (arg_at argv 2) = Some level /\
    Forall (fun cl => snd cl = level) (set_calls t).
Proof.
  unfold DoCmdSet. unfold bind at 1.
  destruct (DoCmdSet_args (tl argv) None None None w) as [[r w1] t1] eqn:E.
  destruct (DoCmdSet_args_validates (tl argv) None None None w)
    as (r0 & t0 & E0 & _).
  rewrite E in E0. inversion E0. subst r0 w1 t0. clear E0.
  destruct r as [res | [[[name|] c] [level|]]].
  - run. intros H. inversion H. subst.
    exfalso. exact (DoCmdSet_args_not_ok _ _ _ _ _ _ _ E).
  - destruct (DoCmdSet_args_shape _ _ _ _ _ _ _ _ _ _ E) as (Hn & Hl & Ht).
    cbn [known] in Hn.
    assert (L3 : List.length argv = 3%nat).
    { destruct argv as [|a argv]; cbn [tl List.length] in *; lia. }
    assert (Lv : lib_StringToLevel (arg_at argv 2) = Some level).
    { destruct (Hl eq_refl level eq_refl) as (a & Ia & La).
      destruct argv as [|a0 [|a1 [|a2 [|a3 argv]]]]; try discriminate.
      cbn [tl] in *. clear Hl Hn L3.
      (* the first argument was taken as the name, the second as the level *)
      revert E. cbn [DoCmdSet_args arg_at nth].
      destruct (negb (PrvIsWildcardContextName _)); run.
      - destruct (lib_FindContext w _) as [e h].
        destruct (failed e); [discriminate|].
        destruct (lib_StringToLevel a2) as [l2|]; [|discriminate].
        intros H. inversion H. reflexivity.
      - destruct (lib_StringToLevel a2) as [l2|]; [|discriminate].
        intros H. inversion H. reflexivity. }
    intros H. split; [exact L3|].
    destruct c as [h|].
    + revert H. run.
      destruct (lib_SetContextLevel w (Some h) level) as [w2 e].
      destruct (failed e); [discriminate|].
      intros H. inversion H. subst.
      rewrite !set_calls_app, Ht. cbn [app set_calls].
      split; [discriminate|]. exists level. split; [exact Lv|].
      repeat constructor.
    + revert H. unfold bind at 1.
      destruct (PrvGetContextList_reads (Some name) w)
        as ([e infos] & t2 & -> & Ht2).
      destruct (failed e); [run; discriminate|].
      destruct (numContexts infos =? 0) eqn:N; [run; discriminate|].
      destruct (DoCmdSet_loop infos level w) as [[r w3] t3] eqn:L.
      intros H. inversion H. subst.
      rewrite !set_calls_app, Ht, (enumeration_set_calls t2 Ht2).
      rewrite (DoCmdSet_loop_ok _ _ _ _ _ L). cbn [app].
      split.
      * destruct infos; [discriminate N | discriminate].
      * exists level. split; [exact Lv|].
        apply Forall_forall. intros cl I. apply in_map_iff in I.
        destruct I as (x & <- & _). reflexivity.
  - destruct c; run; discriminate.
  - run. discriminate.
  - run. discriminate.
Qed.

End SetFacts.

(** ** log *)

Section LogFacts.
Context {P : Platform}.

Lemma validation_effects t : Forall validation t -> effects t = [].
Proof.
  induction 1 as [|e t He _ IH]; [reflexivity|].
  destruct e; cbn [effects]; try exact IH; destruct He.
Qed.

Lemma effects_app t1 t2 :
  effects (t1 ++ t2) = (effects t1 ++ effects t2)%list.
Proof.
  induction t1 as [|e t1 IH]; [reflexivity|].
  destruct e; cbn [app effects]; now rewrite ?IH.
Qed.

(** Each argument the loop of [log] accepts gives one of the three
    values. *)
Lemma DoCmdLog_args_shape args : forall name c lv msg w name' c' lv' msg' w' t,
  DoCmdLog_args args name c lv msg w = (inr (name', c', lv', msg'), w', t) ->
  (known name + known lv + known msg + List.length args
   = known name' + known lv' + known msg')%nat.
Proof.
  induction args as [|arg rest IH];
    intros name c lv msg w name' c' lv' msg' w' t; cbn [DoCmdLog_args]; run.
  - intros [= <- <- <- <- <- <-]. cbn [List.length]. lia.
  - destruct name as [name|].
    + destruct lv as [level|].
      * destruct msg as [msg|]; [run; discriminate|].
        intros E. apply IH in E. cbn [List.length known] in *. lia.
      * run. destruct (lib_StringToLevel arg) as [level|]; [|discriminate].
        destruct (level =? -1); [discriminate|].
        destruct (DoCmdLog_args rest (Some name) c (Some level) msg w)
          as [[r w1] t1] eqn:E.
        intros H. inversion H. subst. apply IH in E.
        cbn [List.length known] in *. lia.
    + run. destruct (lib_FindContext w _) as [e h].
      destruct (failed e); [discriminate|].
      destruct (DoCmdLog_args rest _ h lv msg w) as [[r w1] t1] eqn:E.
      intros H. inversion H. subst. apply IH in E.
      cbn [List.length known] in *. lia.
Qed.

(** A [return] from inside the loop of [log] is a parameter error. *)
Lemma DoCmdLog_args_inl args : forall name c lv msg w r w' t,
  DoCmdLog_args args name c lv msg w = (inl r, w', t) ->
  r = RESULT_PARAM_ERR.
Proof.
  induction args as [|arg rest IH]; intros name c lv msg w r w' t;
    cbn [DoCmdLog_args]; run; [discriminate|].
  destruct name as [name|].
  - destruct lv as [level|].
    + destruct msg as [msg|]; [run; now intros [= <- _ _] | apply IH].
    + run. destruct (lib_StringToLevel arg) as [level|];
        [|now intros [= <- _ _]].
      destruct (level =? -1); [now intros [= <- _ _]|].
      destruct (DoCmdLog_args rest (Some name) c (Some level) msg w)
        as [[r1 w1] t1] eqn:E.
      intros H. inversion H. subst. exact (IH _ _ _ _ _ _ _ _ E).
  - run. destruct (lib_FindContext w _) as [e h].
    destruct (failed e); [now intros [= <- _ _]|].
    destruct (DoCmdLog_args rest _ h lv msg w) as [[r1 w1] t1] eqn:E.
    intros H. inversion H. subst. exact (IH _ _ _ _ _ _ _ _ E).
Qed.

(** X10.  A [log] that does not end in a parameter error was given one
    argument or three, and has emitted exactly one message through the
    library, as the only thing it did to the outside. *)
Theorem DoCmdLog_emits_once (argv : list string) (w w' : World) (r : Result)
    (t : list Event) :
  DoCmdLog argv w = (r, w', t) -> r <> RESULT_PARAM_ERR ->
  (List.length argv = 2%nat \/ List.length argv = 4%nat) /\
  exists c level msg, effects t = [EvPrint_ c level "%s" [msg]].
Proof.
  unfold DoCmdLog. intros H Hr.
  destruct (Z.eqb_spec (Z.of_nat (List.length argv)) 2) as [A|A];
    revert H; unfold bind at 1;
    match goal with
    | |- context [DoCmdLog_args ?a ?n ?c ?l ?m w] =>
        destruct (DoCmdLog_args a n c l m w) as [[r0 w0] t0] eqn:E;
        destruct (DoCmdLog_args_validates a n c l m w) as (r1 & t1 & E1 & Ht0);
        rewrite E in E1; inversion E1; subst r1 w0 t1; clear E1
    end;
    (destruct r0 as [res | [[[[name|] c] [level|]] [msg|]]];
     [ run; intros H; inversion H; subst;
       exfalso; apply Hr; exact (DoCmdLog_args_inl _ _ _ _ _ _ _ _ _ E)
     | | run; intros H; inversion H; subst; now contradiction Hr .. ]);
    apply DoCmdLog_args_shape in E; cbn [known] in E; intros H;
    (split; [destruct argv as [|a argv]; cbn [tl List.length] in *; lia|]);
    revert H; run; destruct (lib_Print_ w c level "%s" [msg]) as [w1 e];
    destruct (failed e); intros H; inversion H; subst;
    exists c, level, msg;
    rewrite !effects_app, (validation_effects t0 Ht0); reflexivity.
Qed.

(** X11.  [log msg], with one argument, emits the message on the global
    context at the level notice, without a lookup.  [log context level
    msg] emits it on the context the library finds, at the level of the
    token.  The command succeeds exactly when the library's call does. *)
Theorem DoCmdLog_emit (cmd msg : string) (w : World) :
  (exists t,
     DoCmdLog [cmd; msg] w =
       (if failed (snd (lib_Print_ w kPmLogGlobalContext kPmLogLevel_Notice
                          "%s" [msg]))
        then RESULT_RUN_ERR else RESULT_OK,
        fst (lib_Print_ w kPmLogGlobalContext kPmLogLevel_Notice "%s" [msg]),
        t) /\
     hd_error (library_calls t) =
       Some (EvPrint_ kPmLogGlobalContext kPmLogLevel_Notice "%s" [msg])) /\
  (forall name lvl c level,
     lib_FindContext w (PrvResolveContextNameAlias name)
       = (kPmLogErr_None, c) ->
     lib_StringToLevel lvl = Some level -> level <> -1 ->
     exists t,
       DoCmdLog [cmd; name; lvl; msg] w =
         (if failed (snd (lib_Print_ w c level "%s" [msg]))
          then RESULT_RUN_ERR else RESULT_OK,
          fst (lib_Print_ w c level "%s" [msg]), t) /\
       firstn 3 (library_calls t) =
         [EvFindContext (PrvResolveContextNameAlias name);
          EvStringToLevel lvl; EvPrint_ c level "%s" [msg]]).
Proof.
  split.
  - unfold DoCmdLog. cbn [List.length tl DoCmdLog_args].
    change (Z.of_nat 2 =? 2) with true. cbn iota. run.
    destruct (lib_Print_ w kPmLogGlobalContext kPmLogLevel_Notice "%s" [msg])
      as [w1 e]. cbn [fst snd].
    destruct (failed e); eexists; split; reflexivity.
  - intros name lvl c level Hf Hl Hn. unfold DoCmdLog.
    cbn [List.length tl DoCmdLog_args].
    change (Z.of_nat 4 =? 2) with false. cbn iota. run.
    rewrite Hf, failed_None, Hl. cbn iota beta.
    destruct (Z.eqb_spec level (-1)) as [?|_]; [contradiction|].
    destruct (lib_Print_ w c level "%s" [msg]) as [w1 e]. cbn [fst snd].
    destruct (failed e); eexists; split; reflexivity.
Qed.

(** X12.  [log] refuses the level -1, which [set] accepts: a token the
    library converts to -1 is an "Invalid level" parameter error, and
    nothing is emitted. *)
Theorem DoCmdLog_rejects_level_none (cmd name lvl : string)
    (rest : list string) (c : PmLogContext) (w : World) :
  lib_FindContext w (PrvResolveContextNameAlias name) = (kPmLogErr_None, c) ->
  lib_StringToLevel lvl = Some (-1) ->
  DoCmdLog (cmd :: name :: lvl :: rest) w =
    (RESULT_PARAM_ERR, w,
     [EvFindContext (PrvResolveContextNameAlias name); EvStringToLevel lvl;
      EvPrintf "Invalid level '%s'.\n" [AStr lvl]]).
Proof.
  intros Hf Hl. unfold DoCmdLog. cbn [List.length tl DoCmdLog_args].
  destruct (Z.eqb_spec (Z.of_nat (S (S (S (List.length rest))))) 2) as [A|_];
    [lia|].
  run. rewrite Hf, failed_None, Hl. reflexivity.
Qed.

End LogFacts.

(** ** klog *)

Section KLogFacts.
Context {P : Platform}.

(** The message the loop of [klog] ends with is the one it started
    with, or an argument that does not begin with '-'. *)
Lemma DoCmdKLog_args_msg n : forall args level msg0 w level' m w' t,
  (List.length args <= n)%nat ->
  DoCmdKLog_args args level msg0 w = (inr (level', Some m), w', t) ->
  msg0 = Some m \/ (In m args /\ first_byte m <> "-"%char).
Proof.
  induction n as [|n IH]; intros [|arg rest] level msg0 w level' m w' t Hn;
    cbn [DoCmdKLog_args List.length] in *; run;
    try (intros [= _ <- _ _]; now left); try lia.
  destruct (Ascii.eqb_spec (first_byte arg) "-") as [D|D].
  - destruct (strcmp arg "-p" =? 0); [|discriminate].
    destruct rest as [|arg' rest]; run; [discriminate|].
    destruct (lib_StringToLevel arg') as [l|]; [|discriminate].
    destruct (DoCmdKLog_args rest l msg0 w) as [[r1 w1] t1] eqn:E.
    intros H. inversion H. subst.
    destruct (IH rest l msg0 w level' m w' t1) as [A|[A B]];
      [cbn [List.length] in Hn; lia | exact E | now left |].
    right. split; [right; right; exact A | exact B].
  - destruct msg0 as [m0|]; [run; discriminate|].
    intros E. destruct (IH rest level (Some arg) w level' m w' t) as [A|[A B]];
      [lia | exact E | |].
    + injection A as <-. right. split; [now left | exact D].
    + right. split; [now right | exact B].
Qed.

(** A [return] from inside the loop of [klog] is a parameter error. *)
Lemma DoCmdKLog_args_inl n : forall args level msg w r w' t,
  (List.length args <= n)%nat ->
  DoCmdKLog_args args level msg w = (inl r, w', t) -> r = RESULT_PARAM_ERR.
Proof.
  induction n as [|n IH]; intros [|arg rest] level msg w r w' t Hn;
    cbn [DoCmdKLog_args List.length] in *; run; try discriminate; try lia.
  destruct (Ascii.eqb (first_byte arg) "-").
  - destruct (strcmp arg "-p" =? 0); [|now intros [= <- _ _]].
    destruct rest as [|arg' rest]; run; [now intros [= <- _ _]|].
    destruct (lib_StringToLevel arg') as [l|]; [|now intros [= <- _ _]].
    destruct (DoCmdKLog_args rest l msg w) as [[r1 w1] t1] eqn:E.
    intros H. inversion H. subst.
    apply (IH rest l msg w r w' t1); [cbn [List.length] in Hn; lia | exact E].
  - destruct msg as [msg|]; [run; now intros [= <- _ _]|].
    apply IH. lia.
Qed.

(** X13.  A [klog] that does not end in a parameter error has checked
    its arguments without touching anything and then written, once, one
    of its arguments as the message; that argument does not begin with
    '-', so a message that begins with '-' cannot be sent. *)
Theorem DoCmdKLog_message (argv : list string) (w w' : World) (r : Result)
    (t : list Event) :
  DoCmdKLog argv w = (r, w', t) -> r <> RESULT_PARAM_ERR ->
  exists level msg t0 t1,
    t = (t0 ++ t1)%list /\ effects t0 = [] /\
    WriteKMsg level msg w = (r, w', t1) /\
    In msg (tl argv) /\ first_byte msg <> "-"%char.
Proof.
  unfold DoCmdKLog. unfold bind at 1. intros H Hr. revert H.
  destruct (DoCmdKLog_args (tl argv) kPmLogLevel_Notice None w)
    as [[r0 w0] t0] eqn:E.
  destruct (DoCmdKLog_args_validates _ (tl argv) kPmLogLevel_Notice None w
              (le_n _)) as (r1 & t1 & E1 & Ht0).
  rewrite E in E1. inversion E1. subst r1 w0 t1. clear E1.
  destruct r0 as [res | [level [msg|]]].
  - run. intros H. inversion H. subst. exfalso. apply Hr.
    exact (DoCmdKLog_args_inl _ _ _ _ _ _ _ _ (le_n _) E).
  - destruct (WriteKMsg level msg w) as [[r2 w2] t2] eqn:W.
    intros H. inversion H. subst.
    exists level, msg, t0, t2. split; [reflexivity|].
    split; [now apply validation_effects|]. split; [exact W|].
    destruct (DoCmdKLog_args_msg _ _ _ _ _ _ _ _ _ (le_n _) E) as [A|A];
      [discriminate | exact A].
  - run. intros H. inversion H. subst. now contradiction Hr.
Qed.

(** X14.  [WriteKMsg] opens the device once.  When the device does not
    open, the result is a run error and nothing is written or closed.
    When it opens, one line is written and the file is closed once,
    also when the write fails; the result is a success exactly when
    [fprintf] did not return a negative number. *)
Theorem WriteKMsg_closes (priority : Z) (msgStr : string) (w : World) :
  let opened := os_fopen w "/dev/kmsg" "w" in
  let data :=
    (if priority >=? 0 then mysprintf 8 ("<" ++ fmt_d priority ++ ">")
     else "") ++ msgStr ++ LF in
  match fst (snd opened) with
  | None =>
      exists t,
        WriteKMsg priority msgStr w = (RESULT_RUN_ERR, fst opened, t) /\
        effects t = [EvFopen "/dev/kmsg" "w"]
  | Some f =>
      exists t,
        let written := os_fprintf (fst opened) f data in
        WriteKMsg priority msgStr w =
          (if fst (snd written) <? 0 then RESULT_RUN_ERR else RESULT_OK,
           os_fclose (fst written) f, t) /\
        effects t = [EvFopen "/dev/kmsg" "w"; EvFprintf data; EvFclose]
  end.
Proof.
  unfold WriteKMsg. run. cbn zeta.
  destruct (os_fopen w "/dev/kmsg" "w") as [w1 [[f|] err]]; cbn [fst snd].
  - destruct (os_fprintf w1 f _) as [w2 [n err']]. cbn [fst snd].
    destruct (n <? 0); eexists; split; reflexivity.
  - eexists. split; reflexivity.
Qed.

End KLogFacts.

(** ** def, reconf and flush *)

Section DefFacts.
Context {P : Platform}.

(** The loop of [def] keeps the name it has. *)
Lemma DoCmdDef_args_name_kept args : forall name lv level w name' level' w' t,
  DoCmdDef_args args (Some name) lv level w = (inr (name', level'), w', t) ->
  name' = Some name.
Proof.
  induction args as [|arg rest IH]; intros name lv level w name' level' w' t;
    cbn [DoCmdDef_args]; run.
  - now intros [= <- _ _ _].
  - destruct lv as [l|]; run; [discriminate|].
    destruct (lib_StringToLevel arg) as [l|]; [|discriminate].
    destruct (DoCmdDef_args rest (Some name) (Some l) l w)
      as [[r w1] t1] eqn:E.
    intros H. inversion H. subst. exact (IH _ _ _ _ _ _ _ _ E).
Qed.

(** The name [def] ends with is its first argument, resolved. *)
Lemma DoCmdDef_args_first args : forall lv level w name' level' w' t,
  DoCmdDef_args args None lv level w = (inr (Some name', level'), w', t) ->
  name' = PrvResolveContextNameAlias (hd "" args).
Proof.
  intros lv level w name' level' w' t. destruct args as [|arg rest];
    cbn [DoCmdDef_args hd]; run; [discriminate|].
  destruct (lib_FindContext w _) as [e h].
  destruct (negb (failed e)); [discriminate|].
  destruct (DoCmdDef_args rest _ lv level w) as [[r w1] t1] eqn:E.
  intros H. inversion H. subst.
  apply DoCmdDef_args_name_kept in E. now injection E as ->.
Qed.

Lemma DoCmdDef_args_inl args : forall name lv level w r w' t,
  DoCmdDef_args args name lv level w = (inl r, w', t) ->
  r = RESULT_PARAM_ERR.
Proof.
  induction args as [|arg rest IH]; intros name lv level w r w' t;
    cbn [DoCmdDef_args]; run; [discriminate|].
  destruct name as [name|].
  - destruct lv as [l|]; run; [now intros [= <- _ _]|].
    destruct (lib_StringToLevel arg) as [l|]; [|now intros [= <- _ _]].
    destruct (DoCmdDef_args rest (Some name) (Some l) l w)
      as [[r1 w1] t1] eqn:E.
    intros H. inversion H. subst. exact (IH _ _ _ _ _ _ _ E).
  - run. destruct (lib_FindContext w _) as [e h].
    destruct (negb (failed e)); [now intros [= <- _ _]|].
    destruct (DoCmdDef_args rest _ lv level w) as [[r1 w1] t1] eqn:E.
    intros H. inversion H. subst. exact (IH _ _ _ _ _ _ _ E).
Qed.

(** X15.  Whatever its arguments, [def] ends in a parameter error
    having changed nothing, or else it has asked the library once for
    the context named by its first argument and, at most, set a level
    once afterwards; it does nothing else to the outside. *)
Theorem DoCmdDef_effects (argv : list string) (w w' : World) (r : Result)
    (t : list Event) :
  DoCmdDef argv w = (r, w', t) ->
  (r = RESULT_PARAM_ERR /\ w' = w /\ effects t = []) \/
  (r <> RESULT_PARAM_ERR /\
   exists c level,
     effects t = [EvGetContext (PrvResolveContextNameAlias (arg_at argv 1))]
     \/
     effects t = [EvGetContext (PrvResolveContextNameAlias (arg_at argv 1));
                  EvSetContextLevel c level]).
Proof.
  unfold DoCmdDef. unfold bind at 1.
  destruct (DoCmdDef_args (tl argv) None None kLevelNotSpecified w)
    as [[r0 w0] t0] eqn:E.
  destruct (DoCmdDef_args_validates (tl argv) None None kLevelNotSpecified w)
    as (r1 & t1 & E1 & Ht0).
  rewrite E in E1. inversion E1. subst r1 w0 t1. clear E1.
  pose proof (validation_effects t0 Ht0) as Z0.
  destruct r0 as [res | [[name|] level]].
  - run. intros H. inversion H. subst. left.
    rewrite app_nil_r. repeat split; [|exact Z0].
    exact (DoCmdDef_args_inl _ _ _ _ _ _ _ _ E).
  - apply DoCmdDef_args_first in E.
    assert (N : name = PrvResolveContextNameAlias (arg_at argv 1)).
    { rewrite E. now destruct argv as [|a [|b argv]]. }
    clear E. subst name. run.
    destruct (lib_GetContext w _) as [w1 [e c]].
    destruct (failed e).
    { intros H. inversion H. subst. right. split; [discriminate|].
      exists c, level. left. rewrite !effects_app, Z0. reflexivity. }
    destruct (negb (level =? kLevelNotSpecified)).
    + run. destruct (lib_SetContextLevel w1 c level) as [w2 e2].
      destruct (failed e2); intros H; inversion H; subst; right;
        (split; [discriminate|]); exists c, level; right;
        rewrite !effects_app, Z0; reflexivity.
    + intros H. inversion H. subst. right. split; [discriminate|].
      exists c, level. left. rewrite !effects_app, Z0. reflexivity.
  - run. intros H. inversion H. subst. left. repeat split.
    rewrite effects_app, Z0. reflexivity.
Qed.

(** X16.  [def] of a name the library already has is a parameter error,
    found by the lookup of the name: the later arguments are not looked
    at and the library is not asked to create anything. *)
Theorem DoCmdDef_existing (cmd name : string) (rest : list string)
    (c : PmLogContext) (w : World) :
  lib_FindContext w (PrvResolveContextNameAlias name) = (kPmLogErr_None, c) ->
  DoCmdDef (cmd :: name :: rest) w =
    (RESULT_PARAM_ERR, w,
     [EvFindContext (PrvResolveContextNameAlias name);
      EvPrintf "Context '%s' is already defined.\n"
        [AStr (PrvResolveContextNameAlias name)]]).
Proof.
  intros Hf. unfold DoCmdDef. cbn [tl DoCmdDef_args]. run.
  rewrite Hf, failed_None. reflexivity.
Qed.

(** X17.  [def name level] of a name the library does not have asks the
    library for the context and then sets the level on the context it
    got, in the world the creation left; the command succeeds exactly
    when the level-set call does.  When the library fails to give the
    context, the command is a run error and no level is set. *)
Theorem DoCmdDef_new (cmd name lvl : string) (level : Z) (w : World) :
  fst (lib_FindContext w (PrvResolveContextNameAlias name))
    <> kPmLogErr_None ->
  lib_StringToLevel lvl = Some level -> level <> kLevelNotSpecified ->
  let created := lib_GetContext w (PrvResolveContextNameAlias name) in
  let c := snd (snd created) in
  exists t,
    (fst (snd created) = kPmLogErr_None ->
     DoCmdDef [cmd; name; lvl] w =
       (if failed (snd (lib_SetContextLevel (fst created) c level))
        then RESULT_RUN_ERR else RESULT_OK,
        fst (lib_SetContextLevel (fst created) c level), t) /\
     effects t = [EvGetContext (PrvResolveContextNameAlias name);
                  EvSetContextLevel c level]) /\
    (fst (snd created) <> kPmLogErr_None ->
     DoCmdDef [cmd; name; lvl] w = (RESULT_RUN_ERR, fst created, t) /\
     effects t = [EvGetContext (PrvResolveContextNameAlias name)]).
Proof.
  intros Hf Hl Hn. cbn zeta. unfold DoCmdDef. cbn [tl DoCmdDef_args]. run.
  destruct (lib_FindContext w _) as [e0 c0]. cbn [fst] in Hf.
  apply failed_true in Hf. rewrite Hf, Hl. cbn [negb]. cbn iota beta.
  destruct (lib_GetContext w _) as [w1 [e c]]. cbn [fst snd].
  destruct (failed e) eqn:F.
  - eexists. split.
    + intros ->. rewrite failed_None in F. discriminate.
    + intros _. split; reflexivity.
  - destruct (Z.eqb_spec level kLevelNotSpecified) as [?|_]; [contradiction|].
    cbn [negb]. run.
    destruct (lib_SetContextLevel w1 c level) as [w2 e2]. cbn [fst snd].
    destruct (failed e2); eexists; (split;
      [intros _; split; reflexivity
      | intros N; apply failed_true in N; rewrite N in F; discriminate]).
Qed.

(** X18.  [reconf] with any argument is a parameter error that names the
    first argument and calls nothing.  Without an argument it emits the
    message "!loglib loadconf" on the global context at the level
    emergency, and succeeds exactly when the library's call does. *)
Theorem DoCmdReConf_spec (cmd : string) (w : World) :
  (forall arg rest,
     DoCmdReConf (cmd :: arg :: rest) w =
       (RESULT_PARAM_ERR, w,
        [EvPrintf "Invalid parameter '%s'.\n" [AStr arg]])) /\
  (let emitted := lib_Print_ w kPmLogGlobalContext kPmLogLevel_Emergency
                    "!loglib loadconf" [] in
   exists t,
     DoCmdReConf [cmd] w =
       (if failed (snd emitted) then RESULT_RUN_ERR else RESULT_OK,
        fst emitted, t) /\
     effects t = [EvPrint_ kPmLogGlobalContext kPmLogLevel_Emergency
                    "!loglib loadconf" []]).
Proof.
  split; [reflexivity|]. cbn zeta. unfold DoCmdReConf. cbn [tl]. run.
  destruct (lib_Print_ w _ _ _ _) as [w1 e]. cbn [fst snd].
  destruct (failed e); eexists; split; reflexivity.
Qed.

(** X19.  [flush] emits its message exactly when the library finds the
    context "PmLogCtl": when the lookup fails the command is a run
    error and nothing is emitted; when it succeeds one message is
    emitted on the context found, at the level emergency.  [flush]
    never ends in a parameter error. *)
Theorem DoCmdFlush_spec (w : World) :
  let found := lib_FindContext w "PmLogCtl" in
  exists t,
    (fst found <> kPmLogErr_None ->
     DoCmdFlush w = (RESULT_RUN_ERR, w, t) /\ effects t = []) /\
    (fst found = kPmLogErr_None ->
     let emitted := lib_Print w (snd found) kPmLogLevel_Emergency
                      "Manually Flushing Buffers" in
     DoCmdFlush w =
       (if failed (snd emitted) then RESULT_RUN_ERR else RESULT_OK,
        fst emitted, t) /\
     effects t = [EvPrint (snd found) kPmLogLevel_Emergency
                    "Manually Flushing Buffers"]).
Proof.
  cbn zeta. unfold DoCmdFlush. run.
  destruct (lib_FindContext w "PmLogCtl") as [e c]. cbn [fst snd].
  destruct (failed e) eqn:F.
  - eexists. split; [intros _; split; reflexivity|].
    intros ->. rewrite failed_None in F. discriminate.
  - destruct (lib_Print w c _ _) as [w1 e1]. cbn [fst snd].
    destruct (failed e1); eexists;
      (split; [intros N; apply failed_true in N; rewrite N in F; discriminate
              | intros _; split; reflexivity]).
Qed.

End DefFacts.

(** ** main and the alias *)

Lemma strcmp_neq s lit :
  cstring s -> cstring lit -> s <> lit -> (strcmp s lit =? 0) = false.
Proof.
  intros Hs Hl N. apply Z.eqb_neq. intros E. apply N.
  now apply strcmp_eq.
Qed.

Lemma cstring_literal s :
  forallb (fun c => negb (Ascii.eqb c NUL)) (list_ascii_of_string s) = true ->
  cstring s.
Proof.
  intros H I. rewrite forallb_forall in H. specialize (H _ I).
  now rewrite Ascii.eqb_refl in H.
Qed.

Section MainMore.
Context {P : Platform}.
Variable DoCmdView : list string -> M Result.

(** X20.  Without a command, and with a command that is none of the
    ten names, [main] calls nothing and reports a parameter error: it
    prints its complaint and the hint to use -help, and exits with
    failure. *)
Theorem main_no_or_invalid_command (w : World) :
  (forall argv,
     (List.length argv < 2)%nat ->
     main DoCmdView argv w =
       (EXIT_FAILURE, w,
        [EvPrintf "No command specified.\n" [];
         EvPrintf "Use -help for usage information.\n" []])) /\
  (forall argv0 cmd rest,
     cstring cmd -> ~ In cmd command_names ->
     main DoCmdView (argv0 :: cmd :: rest) w =
       (EXIT_FAILURE, w,
        [EvPrintf "Invalid command '%s'\n" [AStr cmd];
         EvPrintf "Use -help for usage information.\n" []])).
Proof.
  split.
  - intros argv H. unfold main, main_result.
    destruct (Z.ltb_spec (Z.of_nat (List.length argv)) 2); [|lia].
    reflexivity.
  - intros argv0 cmd rest Hc Hn. unfold main, main_result.
    cbn [List.length arg_at nth].
    destruct (Z.ltb_spec (Z.of_nat (S (S (List.length rest)))) 2); [lia|].
    assert (F : forall lit, In lit command_names ->
                  (strcmp cmd lit =? 0) = false).
    { intros lit I. apply strcmp_neq; [exact Hc | | congruence].
      apply cstring_literal.
      unfold command_names in I. cbn [In] in I.
      repeat destruct I as [<-|I]; try reflexivity. destruct I. }
    unfold command_names in F. cbn [In] in F.
    rewrite !F by tauto. reflexivity.
Qed.

(** X21.  [flush] and [help] take no notice of further arguments:
    whatever follows the command, [flush] does what it does alone, and
    [help] and [-help] end in the outcome help-shown having changed
    nothing, after asking the library for the names of the levels -1 to
    7 in this order. *)
Theorem main_flush_help_ignore_arguments (argv0 : string)
    (rest : list string) (w : World) :
  main_result DoCmdView (argv0 :: "flush" :: rest) w = DoCmdFlush w /\
  forall cmd, cmd = "help" \/ cmd = "-help" ->
    exists t,
      main_result DoCmdView (argv0 :: cmd :: rest) w = (RESULT_HELP, w, t) /\
      library_calls t = map EvLevelToString [-1; 0; 1; 2; 3; 4; 5; 6; 7] /\
      List.length (printed t) = 23%nat.
Proof.
  split.
  - unfold main_result. cbn [List.length arg_at nth].
    destruct (Z.ltb_spec (Z.of_nat (S (S (List.length rest)))) 2); [lia|].
    reflexivity.
  - intros cmd [-> | ->]; unfold main_result; cbn [List.length arg_at nth];
      (destruct (Z.ltb_spec (Z.of_nat (S (S (List.length rest)))) 2); [lia|]);
      eexists; split; try reflexivity; split; reflexivity.
Qed.

End MainMore.

Section AliasFacts.
Context {P : Platform}.

(** X22.  The alias "." stands for the name of the global context: as the
    context argument of [show], [set] and [def] it gives the same
    result, the same world and the same trace as that name; so it does
    for [log] when the library finds the global context. *)
Theorem alias_is_global_name (cmd : string) (rest : list string) (w : World) :
  DoCmdShow (cmd :: "." :: rest) w
    = DoCmdShow (cmd :: kPmLogGlobalContextName :: rest) w /\
  DoCmdSet (cmd :: "." :: rest) w
    = DoCmdSet (cmd :: kPmLogGlobalContextName :: rest) w /\
  DoCmdDef (cmd :: "." :: rest) w
    = DoCmdDef (cmd :: kPmLogGlobalContextName :: rest) w /\
  (rest <> [] ->
   fst (lib_FindContext w kPmLogGlobalContextName) = kPmLogErr_None ->
   DoCmdLog (cmd :: "." :: rest) w
     = DoCmdLog (cmd :: kPmLogGlobalContextName :: rest) w).
Proof.
  split; [reflexivity|]. split; [reflexivity|]. split; [reflexivity|].
  intros Hr Hf. unfold DoCmdLog. cbn [List.length tl].
  destruct (Z.eqb_spec (Z.of_nat (S (S (List.length rest)))) 2) as [A|_].
  { destruct rest; [contradiction | cbn [List.length] in A; lia]. }
  cbn [DoCmdLog_args].
  change (PrvResolveContextNameAlias ".") with kPmLogGlobalContextName.
  change (PrvResolveContextNameAlias kPmLogGlobalContextName)
    with kPmLogGlobalContextName.
  run. destruct (lib_FindContext w kPmLogGlobalContextName) as [e c].
  cbn [fst] in Hf. subst e. rewrite failed_None. reflexivity.
Qed.

End AliasFacts.

(** ** Instances of the further properties *)

Lemma SortCmpContextInfoByName_order_witness :
  SortCmpContextInfoByName (Fake.info 1 "alpha") (Fake.info 2 "Bravo") <= 0.
Proof.
  destruct (SortCmpContextInfoByName_order (P:=Fake.platform))
    as (_ & Trans & _).
  apply (Trans (Fake.info 1 "alpha") (Fake.info 0 "beta") (Fake.info 2 "Bravo"));
    vm_compute; discriminate.
Defined.

Lemma PrvGetContextList_first_error_witness :
  PrvGetContextList (P:=Faulty.platform) None Fake.w0
    = ((7, []), Fake.w0, [EvGetNumContexts]) /\
  exists l t,
    PrvGetContextList (P:=Faulty.platform) None Fake.w3 = ((5, l), Fake.w3, t) /\
    queries_up_to 1 t /\ Forall enum_query t.
Proof.
  split.
  - apply (proj1 (PrvGetContextList_first_error (P:=Faulty.platform) None
                    Fake.w0) 7 0); [reflexivity | discriminate].
  - apply (proj2 (PrvGetContextList_first_error (P:=Faulty.platform) None
                    Fake.w3) 3 1
             [mkContextInfo (P:=Faulty.platform) (Some 0%nat) "beta"] 5).
    + reflexivity.
    + lia.
    + vm_compute. discriminate.
    + reflexivity.
    + reflexivity.
Defined.

Lemma DoCmdShow_read_only_witness :
  exists r t,
    DoCmdShow ["show"; "zz*"] Fake.w3 = (r, Fake.w3, t) /\
    Forall read_only t /\ effects t = [].
Proof.
  apply (DoCmdShow_read_only (P:=Fake.platform) ["show"; "zz*"] Fake.w3).
  intros n H. injection H as <-. vm_compute. discriminate.
Defined.

Lemma DoCmdShow_lines_witness :
  exists t,
    DoCmdShow ["show"; "b*"] Fake.w3 = (RESULT_OK, Fake.w3, t) /\
    printed t = [("Context '%s' = %s\n", [AStr "beta"; AStr "err"])].
Proof.
  apply (proj2 (DoCmdShow_lines (P:=Fake.platform) Fake.w3
                  [Fake.info 0 "beta"]) "show" "b*").
  - reflexivity.
  - discriminate.
Defined.

Lemma DoCmdShow_param_error_iff_witness :
  DoCmdShow ["show"; "a"; "b"] Fake.w3 =
    (RESULT_PARAM_ERR, Fake.w3,
     [EvPrintf "Invalid parameter '%s'\n" [AStr "b"]]).
Proof.
  apply (DoCmdShow_param_error_iff (P:=Fake.platform) ["show"; "a"; "b"]
           Fake.w3).
  cbn. lia.
Defined.

Lemma DoCmdSet_exact_witness :
  exists t,
    DoCmdSet ["set"; "alpha"; "err"] Fake.w3 =
      (RESULT_OK,
       Fake.mkState
         [Fake.mkCtx "beta" 3 true; Fake.mkCtx "alpha" 3 false;
          Fake.mkCtx "Bravo" 7 false] None [], t) /\
    library_calls t =
      [EvFindContext "alpha"; EvStringToLevel "err";
       EvSetContextLevel (Some 1%nat) 3].
Proof.
  apply (DoCmdSet_exact (P:=Fake.platform) "set" "alpha" "err" 3 1%nat Fake.w3);
    reflexivity.
Defined.

Lemma DoCmdSet_ok_shape_witness :
  List.length ["set"; "a*"; "debug"] = 3%nat /\
  set_calls (snd (DoCmdSet ["set"; "a*"; "debug"] Fake.w3)) <> [] /\
  exists level,
    lib_StringToLevel (arg_at ["set"; "a*"; "debug"] 2) = Some level /\
    Forall (fun cl => snd cl = level)
      (set_calls (snd (DoCmdSet ["set"; "a*"; "debug"] Fake.w3))).
Proof.
  apply (DoCmdSet_ok_shape (P:=Fake.platform) ["set"; "a*"; "debug"] Fake.w3
           (snd (fst (DoCmdSet (P:=Fake.platform) ["set"; "a*"; "debug"]
                        Fake.w3)))
           (snd (DoCmdSet (P:=Fake.platform) ["set"; "a*"; "debug"] Fake.w3))).
  reflexivity.
Defined.

Lemma DoCmdLog_emits_once_witness :
  (List.length ["log"; "hello"] = 2%nat \/
   List.length ["log"; "hello"] = 4%nat) /\
  exists c level msg,
    effects (snd (DoCmdLog ["log"; "hello"] Fake.w3))
      = [EvPrint_ c level "%s" [msg]].
Proof.
  apply (DoCmdLog_emits_once (P:=Fake.platform) ["log"; "hello"] Fake.w3
           Fake.w3 RESULT_OK
           (snd (DoCmdLog (P:=Fake.platform) ["log"; "hello"] Fake.w3))).
  - reflexivity.
  - discriminate.
Defined.

Lemma DoCmdLog_emit_witness :
  exists t,
    DoCmdLog ["log"; "alpha"; "err"; "hi"] Fake.w3
      = (RESULT_OK, Fake.w3, t) /\
    firstn 3 (library_calls t) =
      [EvFindContext "alpha"; EvStringToLevel "err";
       EvPrint_ (Some 1%nat) 3 "%s" ["hi"]].
Proof.
  apply (proj2 (DoCmdLog_emit (P:=Fake.platform) "log" "hi" Fake.w3)
           "alpha" "err" (Some 1%nat) 3).
  - reflexivity.
  - reflexivity.
  - discriminate.
Defined.

Lemma DoCmdLog_rejects_level_none_witness :
  DoCmdLog ["log"; "alpha"; "none"; "hi"] Fake.w3 =
    (RESULT_PARAM_ERR, Fake.w3,
     [EvFindContext "alpha"; EvStringToLevel "none";
      EvPrintf "Invalid level '%s'.\n" [AStr "none"]]).
Proof.
  apply (DoCmdLog_rejects_level_none (P:=Fake.platform) "log" "alpha" "none"
           ["hi"] (Some 1%nat) Fake.w3); reflexivity.
Defined.

Lemma DoCmdKLog_message_witness :
  exists level msg t0 t1,
    snd (DoCmdKLog ["klog"; "-p"; "err"; "boom"] Fake.w3) = (t0 ++ t1)%list /\
    effects t0 = [] /\
    WriteKMsg level msg Fake.w3 =
      (RESULT_OK, snd (fst (DoCmdKLog ["klog"; "-p"; "err"; "boom"] Fake.w3)),
       t1) /\
    In msg (tl ["klog"; "-p"; "err"; "boom"]) /\ first_byte msg <> "-"%char.
Proof.
  apply (DoCmdKLog_message (P:=Fake.platform) ["klog"; "-p"; "err"; "boom"]
           Fake.w3
           (snd (fst (DoCmdKLog (P:=Fake.platform)
                        ["klog"; "-p"; "err"; "boom"] Fake.w3)))
           RESULT_OK).
  - reflexivity.
  - discriminate.
Defined.

Lemma DoCmdDef_effects_witness :
  (RESULT_OK = RESULT_PARAM_ERR /\
   snd (fst (DoCmdDef ["def"; "mycomp"; "err"] Fake.w3)) = Fake.w3 /\
   effects (snd (DoCmdDef ["def"; "mycomp"; "err"] Fake.w3)) = []) \/
  (RESULT_OK <> RESULT_PARAM_ERR /\
   exists c level,
     effects (snd (DoCmdDef ["def"; "mycomp"; "err"] Fake.w3))
       = [EvGetContext "mycomp"]
     \/
     effects (snd (DoCmdDef ["def"; "mycomp"; "err"] Fake.w3))
       = [EvGetContext "mycomp"; EvSetContextLevel c level]).
Proof.
  apply (DoCmdDef_effects (P:=Fake.platform) ["def"; "mycomp"; "err"] Fake.w3
           (snd (fst (DoCmdDef (P:=Fake.platform) ["def"; "mycomp"; "err"]
                        Fake.w3)))
           RESULT_OK).
  reflexivity.
Defined.

Lemma DoCmdDef_existing_witness :
  DoCmdDef ["def"; "alpha"; "err"] Fake.w3 =
    (RESULT_PARAM_ERR, Fake.w3,
     [EvFindContext "alpha";
      EvPrintf "Context '%s' is already defined.\n" [AStr "alpha"]]).
Proof.
  apply (DoCmdDef_existing (P:=Fake.platform) "def" "alpha" ["err"]
           (Some 1%nat) Fake.w3).
  reflexivity.
Defined.

(** [def mycomp err] creates the context and sets its level; [def full
    err] fails to create it and sets nothing. *)
Lemma DoCmdDef_new_witness :
  (exists t,
     effects (snd (DoCmdDef ["def"; "mycomp"; "err"] Fake.w3)) = effects t /\
     effects t = [EvGetContext "mycomp"; EvSetContextLevel (Some 3%nat) 3]) /\
  (exists t,
     DoCmdDef (P:=Faulty.platform) ["def"; "full"; "err"] Fake.w3
       = (RESULT_RUN_ERR, Fake.w3, t) /\
     effects t = [EvGetContext "full"]).
Proof.
  split.
  - destruct (DoCmdDef_new (P:=Fake.platform) "def" "mycomp" "err" 3 Fake.w3)
      as (t & Created & _); [discriminate | reflexivity | discriminate |].
    exists t. destruct (Created eq_refl) as [E Ht].
    split; [|exact Ht]. now rewrite E.
  - destruct (DoCmdDef_new (P:=Faulty.platform) "def" "full" "err" 3 Fake.w3)
      as (t & _ & Failed); [discriminate | reflexivity | discriminate |].
    exists t. apply Failed. discriminate.
Defined.

Lemma DoCmdFlush_spec_witness :
  (exists t,
     DoCmdFlush Fake.w3 = (RESULT_RUN_ERR, Fake.w3, t) /\ effects t = []) /\
  (exists t,
     DoCmdFlush Faulty.wctl = (RESULT_OK, Faulty.wctl, t) /\
     effects t = [EvPrint (Some 0%nat) 0 "Manually Flushing Buffers"]).
Proof.
  split.
  - destruct (DoCmdFlush_spec (P:=Fake.platform) Fake.w3) as (t & Missing & _).
    exists t. apply Missing. discriminate.
  - destruct (DoCmdFlush_spec (P:=Fake.platform) Faulty.wctl)
      as (t & _ & Found).
    exists t. apply Found. reflexivity.
Defined.

Lemma main_no_or_invalid_command_witness :
  main Fake.DoCmdView ["PmLogCtl"; "frobnicate"; "x"] Fake.w3 =
    (EXIT_FAILURE, Fake.w3,
     [EvPrintf "Invalid command '%s'\n" [AStr "frobnicate"];
      EvPrintf "Use -help for usage information.\n" []]).
Proof.
  apply (main_no_or_invalid_command (P:=Fake.platform) Fake.DoCmdView Fake.w3).
  - apply cstring_literal. reflexivity.
  - unfold command_names. cbn [In]. intuition discriminate.
Defined.

Lemma alias_is_global_name_witness :
  DoCmdLog ["log"; "."; "err"; "hi"] Faulty.wctl
    = DoCmdLog ["log"; "<global>"; "err"; "hi"] Faulty.wctl.
Proof.
  apply (alias_is_global_name (P:=Fake.platform) "log" ["err"; "hi"]
           Faulty.wctl).
  - discriminate.
  - reflexivity.
Defined.
